(** * Write-consistency layer of the storefront backend

    A shallow embedding of the product aggregate writer
    ([ProductDBRepository.insertProduct], [ProductDBRepository.updateProduct]),
    of the two controllers that drive it ([ProductController.post],
    [ProductController.update]) and of the store colour manager
    ([StoreController.createStore], [StoreController.update]).

    Rows and request payloads are JavaScript objects: finite maps from
    property names to values.  A table is the list of its rows in insertion
    order.  Every repository call threads the database through a small
    state-and-exception monad which also returns the calls it issued, so that
    statements about "which writes were issued" are statements about that
    list.  A thrown error leaves the state as the writes before it made it:
    only the unit of work undoes anything. *)

From Stdlib Require Import ZArith Lia.
From stdpp Require Import base option list gmap strings fin_maps.

Local Open Scope string_scope.
Local Open Scope list_scope.
Local Open Scope Z_scope.

(** ** Values, rows, tables *)

#[local] Set Warnings "-register-all".

(** A property is a number or a string, or, in a request payload, an array
    or a nested object, given by the list of its properties. *)
Inductive value :=
  | VNum (n : Z)
  | VStr (s : string)
  | VArr (items : list value)
  | VObj (props : list (string * value)).

#[global] Instance value_eq_dec : EqDecision value.
Proof.
  refine (fix go (v w : value) {struct v} : Decision (v = w) :=
    match v, w with
    | VNum n, VNum m => cast_if (decide (n = m))
    | VStr s, VStr t => cast_if (decide (s = t))
    | VArr xs, VArr ys => cast_if (@list_eq_dec _ go xs ys)
    | VObj ps, VObj qs => cast_if (@list_eq_dec _ (@prod_eq_dec _ _ _ go) ps qs)
    | _, _ => right _
    end); congruence.
Defined.

(** A row, a patch or a payload without its nested members. *)
Abbreviation Row := (gmap string value).

(** A search criterion [{ k1: v1, k2: v2 }]: a conjunction of equalities.
    A value may be [undefined] ([None]). *)
Abbreviation Criteria := (list (string * option value)).

Inductive table :=
  | TBrand | TCategory | TSize
  | TProduct | TProductCategory | TProductSize
  | TStore | TStoreColor.

#[global] Instance table_eq_dec : EqDecision table.
Proof. solve_decision. Defined.

Record Db := mkDb {
  db_brand : list Row;
  db_category : list Row;
  db_size : list Row;
  db_product : list Row;
  db_productCategory : list Row;
  db_productSize : list Row;
  db_store : list Row;
  db_storeColor : list Row;
}.

Definition emptyDb : Db := mkDb [] [] [] [] [] [] [] [].

Definition get (t : table) (d : Db) : list Row :=
  match t with
  | TBrand => db_brand d
  | TCategory => db_category d
  | TSize => db_size d
  | TProduct => db_product d
  | TProductCategory => db_productCategory d
  | TProductSize => db_productSize d
  | TStore => db_store d
  | TStoreColor => db_storeColor d
  end.

Definition set (t : table) (rows : list Row) (d : Db) : Db :=
  match t with
  | TBrand => mkDb rows (db_category d) (db_size d) (db_product d) (db_productCategory d) (db_productSize d) (db_store d) (db_storeColor d)
  | TCategory => mkDb (db_brand d) rows (db_size d) (db_product d) (db_productCategory d) (db_productSize d) (db_store d) (db_storeColor d)
  | TSize => mkDb (db_brand d) (db_category d) rows (db_product d) (db_productCategory d) (db_productSize d) (db_store d) (db_storeColor d)
  | TProduct => mkDb (db_brand d) (db_category d) (db_size d) rows (db_productCategory d) (db_productSize d) (db_store d) (db_storeColor d)
  | TProductCategory => mkDb (db_brand d) (db_category d) (db_size d) (db_product d) rows (db_productSize d) (db_store d) (db_storeColor d)
  | TProductSize => mkDb (db_brand d) (db_category d) (db_size d) (db_product d) (db_productCategory d) rows (db_store d) (db_storeColor d)
  | TStore => mkDb (db_brand d) (db_category d) (db_size d) (db_product d) (db_productCategory d) (db_productSize d) rows (db_storeColor d)
  | TStoreColor => mkDb (db_brand d) (db_category d) (db_size d) (db_product d) (db_productCategory d) (db_productSize d) (db_store d) rows
  end.

(** ** Errors, calls, and the monad *)

Inductive error :=
  | Error (msg : string)       (* [throw new Error(msg)] *)
  | TypeError (prop : string). (* the runtime's error when [prop] is read
                                  or destructured from [undefined] *)

#[global] Instance error_eq_dec : EqDecision error.
Proof. solve_decision. Defined.

(** [String(e)], as used by [throw Error(e)]. *)
Definition toString (e : error) : string :=
  match e with
  | Error msg => "Error: " +:+ msg
  | TypeError prop => "TypeError: Cannot read properties of undefined (reading '" +:+ prop +:+ "')"
  end.

Inductive call :=
  | Insert (t : table) (row : Row)
  | Update (t : table) (patch : Row)
  | Delete (t : table) (criteria : Criteria)
  | Begin
  | Commit
  | Rollback.

#[global] Instance call_eq_dec : EqDecision call.
Proof. solve_decision. Defined.

Inductive result (A : Type) :=
  | Ok (a : A)
  | Throw (e : error).
Arguments Ok {A} a.
Arguments Throw {A} e.

(** The connection: the tables as they stand, and the tables as they stood
    when the open transaction scope, if any, was begun. *)
Record state := mkState {
  tables : Db;
  scope : option Db;
}.

Definition M (A : Type) : Type := state → result A * state * list call.

#[global] Instance M_ret : MRet M := λ A a s, (Ok a, s, []).

#[global] Instance M_bind : MBind M := λ A B f m s,
  match m s with
  | (Ok a, s1, c1) => let '(r, s2, c2) := f a s1 in (r, s2, c1 ++ c2)
  | (Throw e, s1, c1) => (Throw e, s1, c1)
  end.

Definition throw {A} (e : error) : M A := λ s, (Throw e, s, []).

(** [try { body } catch (e) { handler e }] *)
Definition try_catch {A} (body : M A) (handler : error → M A) : M A := λ s,
  match body s with
  | (Ok a, s1, c1) => (Ok a, s1, c1)
  | (Throw e, s1, c1) => let '(r, s2, c2) := handler e s1 in (r, s2, c1 ++ c2)
  end.

(** [for (const x of xs) { body x }] *)
Fixpoint for_of {A} (xs : list A) (body : A → M unit) : M unit :=
  match xs with
  | [] => mret tt
  | x :: xs' => body x ;; for_of xs' body
  end.

Definition outcome {A} (x : result A * state * list call) : result A := x.1.1.
Definition final {A} (x : result A * state * list call) : state := x.1.2.
Definition calls {A} (x : result A * state * list call) : list call := x.2.

(** ** The repository base

    Modelled from the spec: the generic CRUD repository base
    ([find], [insertOne], [update], [delete], [getById] over one table) is not
    part of the sources read here.  Its interface is the one the writers
    consume: [find(criteria)] returns the matching rows in table order,
    [insertOne(row)] appends the row and returns its [insertId], [update]
    patches the row carrying the patch's [id] in place, [delete(criteria)]
    removes the matching rows.  A criterion whose value is [undefined]
    compares with no row.  Identity is assigned by the table on insertion;
    the two join tables hold bare pairs and assign none. *)

Module Repo.

Definition Matches (c : Criteria) (r : Row) : Prop :=
  Forall (λ kv, is_Some kv.2 ∧ r !! kv.1 = kv.2) c.

#[global] Instance Matches_dec c r : Decision (Matches c r).
Proof. unfold Matches. apply _. Defined.

Definition keyed (t : table) : bool :=
  match t with
  | TProductCategory | TProductSize => false
  | _ => true
  end.

Definition idOf (r : Row) : Z :=
  match r !! "id" with
  | Some (VNum n) => n
  | _ => 0
  end.

Definition nextId (rows : list Row) : Z :=
  foldr (λ r m, Z.max (idOf r) m) 0 rows + 1.

Definition find (t : table) (c : Criteria) : M (list Row) := λ s,
  (Ok (filter (Matches c) (get t (tables s))), s, []).

Definition insertOne (t : table) (row : Row) : M Z := λ s,
  let rows := get t (tables s) in
  let insertId := if keyed t then nextId rows else 0 in
  let stored := if keyed t then <["id" := VNum insertId]> row else row in
  (Ok insertId, mkState (set t (rows ++ [stored]) (tables s)) (scope s),
   [Insert t stored]).

Definition patched (patch : Row) (r : Row) : Row :=
  if decide (is_Some (patch !! "id") ∧ r !! "id" = patch !! "id")
  then patch ∪ r else r.

Definition update (t : table) (patch : Row) : M unit := λ s,
  (Ok tt, mkState (set t (patched patch <$> get t (tables s)) (tables s)) (scope s),
   [Update t patch]).

Definition delete (t : table) (c : Criteria) : M unit := λ s,
  (Ok tt,
   mkState (set t (filter (λ r, ¬ Matches c r) (get t (tables s))) (tables s)) (scope s),
   [Delete t c]).

Definition getById (t : table) (i : Z) : M (option Row) :=
  rows ← find t [("id", Some (VNum i))];
  mret (head rows).

End Repo.

(** ** The unit of work

    Modelled from the spec: the [UnitOfWork] class is not part of the sources
    read here.  [beginTransaction] starts a scope on the connection,
    [commitTransaction] finalizes the writes issued since, and
    [rollbackTransaction] discards them and closes the scope; a terminal call
    with no scope open finds nothing to finalize or to discard. *)

Module UnitOfWork.

Definition beginTransaction : M unit := λ s,
  (Ok tt, mkState (tables s) (Some (tables s)), [Begin]).

Definition commitTransaction : M unit := λ s,
  (Ok tt, mkState (tables s) None, [Commit]).

Definition rollbackTransaction : M unit := λ s,
  (Ok tt,
   match scope s with
   | Some d => mkState d None
   | None => s
   end,
   [Rollback]).

End UnitOfWork.

(** ** JavaScript odds and ends *)

(** [!!x] on a property that may be [undefined]. *)
Definition truthy (v : option value) : bool :=
  match v with
  | Some (VNum n) => negb (n =? 0)
  | Some (VStr s) => negb (String.eqb s "")
  | Some (VArr _) | Some (VObj _) => true
  | None => false
  end.

Arguments truthy : simpl never.

(** [!!arr] on an array: every object is truthy, the empty array included. *)
Definition truthy_array {A} (arr : list A) : bool := true.

(** [arr[0].p]: reading [p] from [undefined] throws. *)
Definition first_prop (arr : list Row) (p : string) : M (option value) :=
  match arr with
  | [] => throw (TypeError p)
  | r :: _ => mret (r !! p)
  end.

(** [{ ...o, k: v }] where [v] may be [undefined]. *)
Definition with_prop (k : string) (v : option value) (o : Row) : Row :=
  match v with
  | Some x => <[k := x]> o
  | None => base.delete k o
  end.

(** ** Payloads *)

(** The two many-to-many associations of a product. *)
Inductive assoc := Categories | Sizes.

Definition joinTable (k : assoc) : table :=
  match k with Categories => TProductCategory | Sizes => TProductSize end.
Definition refTable (k : assoc) : table :=
  match k with Categories => TCategory | Sizes => TSize end.
Definition foreignKey (k : assoc) : string :=
  match k with Categories => "categoryId" | Sizes => "sizeId" end.
Definition invalid (k : assoc) : string :=
  match k with Categories => "Invalid category" | Sizes => "Invalid size" end.

(** [Product]: [rest] is the object left once [categories], [sizes] and
    [brand] are destructured away. *)
Record Product := mkProduct {
  categories : list string;
  sizes : list string;
  brand : string;
  rest : Row;
}.

Definition wanted (k : assoc) (p : Product) : list string :=
  match k with Categories => categories p | Sizes => sizes p end.

(** The product as the one object it is before it is destructured, which
    is how it sits in the [products] array of a store payload: the three
    properties the writers name, then the others. *)
Definition objectOf (p : Product) : value :=
  VObj (("categories", VArr (VStr <$> categories p))
          :: ("sizes", VArr (VStr <$> sizes p))
          :: ("brand", VStr (brand p))
          :: map_to_list (rest p)).

(** [ColorInterface] *)
Record Color := mkColor { hue : Z; sat : Z; light : Z }.

Record Colors := mkColors {
  primary : option Color;
  secondary : option Color;
}.

(** [StoreInterface]: the scalar properties and the two nested members,
    [colors] and [products], each of which a payload may lack. *)
Record Store := mkStore {
  scalars : Row;
  colors : option Colors;
  products : option (list Product);
}.

(** [store] once [delete store.colors] has run: the scalar properties and,
    when the payload has one, its [products] array. *)
Definition uncolored (st : Store) : Row :=
  match products st with
  | Some ps => <["products" := VArr (objectOf <$> ps)]> (scalars st)
  | None => scalars st
  end.

(** [{ ...color }] *)
Definition spread (c : option Color) : Row :=
  match c with
  | Some c => {[ "hue" := VNum (hue c); "sat" := VNum (sat c); "light" := VNum (light c) ]}
  | None => ∅
  end.

(** [ProductInterface] as [updateProduct] receives it: a product together
    with its [id], which [rest] holds no more. *)
Record ProductInterface := mkEntity {
  entity_id : Z;
  entity : Product;
}.

(** What [ProductRepository.getById] hands back: the row and the names of
    the associated categories and sizes. *)
Record Persisted := mkPersisted {
  row : Row;
  persisted_categories : list string;
  persisted_sizes : list string;
}.

Definition persisted (k : assoc) (p : Persisted) : list string :=
  match k with Categories => persisted_categories p | Sizes => persisted_sizes p end.

(** ** ProductRepository (read side) *)

Module ProductRepository.

Definition nameOf (r : Row) : list string :=
  match r !! "name" with
  | Some (VStr n) => [n]
  | _ => []
  end.

(** Modelled from the spec: [ProductRepository] is not part of the sources
    read here.  A product's persisted association names are read back from
    the join table, in the order of its rows, each joined by id with the
    reference table. *)
Definition names (k : assoc) (i : Z) (d : Db) : list string :=
  filter (Repo.Matches [("productId", Some (VNum i))]) (get (joinTable k) d) ≫= λ j,
  filter (λ r, is_Some (j !! foreignKey k) ∧ r !! "id" = j !! foreignKey k)
         (get (refTable k) d) ≫= nameOf.

Definition getById (i : Z) : M (option Persisted) := λ s,
  (Ok ((λ r, mkPersisted r (names Categories i (tables s)) (names Sizes i (tables s)))
         <$> head (filter (Repo.Matches [("id", Some (VNum i))]) (get TProduct (tables s)))),
   s, []).

End ProductRepository.

(** ** ProductDBRepository *)

Module ProductDBRepository.

(** The body shared by the four resolve-and-insert loops: look the name up,
    throw when nothing matches, insert the join row. *)
Definition associate (k : assoc) (productId : Z) (name : string) : M unit :=
  response ← Repo.find (refTable k) [("name", Some (VStr name))];
  if (length response <? 1)%nat then throw (Error (invalid k))
  else
    Repo.insertOne (joinTable k)
      (with_prop (foreignKey k) (head response ≫= (.!! "id"))
         {[ "productId" := VNum productId ]});;
    mret tt.

(** [insertProduct(product, id)]; [id] is the store's.  The result is the
    [insertId] of the product row. *)
Definition insertProduct (product : Product) (id : value) : M Z :=
  brandName ← Repo.find TBrand [("name", Some (VStr (brand product)))];
  if negb (truthy_array brandName) then throw (Error "No brand with that name")
  else
    brandId ← first_prop brandName "id";
    insertId ← Repo.insertOne TProduct
      (with_prop "brandId" brandId (<["storeId" := id]> (rest product)));
    if negb (truthy (Some (VNum insertId))) then throw (Error "Product creation failed")
    else
      for_of (categories product) (associate Categories insertId);;
      for_of (sizes product) (associate Sizes insertId);;
      mret insertId.

(** [wanted.some((val, index) => val !== persisted[index])], from [index]
    on; an index past the end of [persisted] reads [undefined]. *)
Fixpoint some_differs (index : nat) (wanted persisted : list string) : bool :=
  match wanted with
  | [] => false
  | val :: wanted' =>
      negb (bool_decide (persisted !! index = Some val))
      || some_differs (S index) wanted' persisted
  end.

Definition changed (wanted persisted : list string) : bool :=
  negb (length wanted =? length persisted)%nat || some_differs 0 wanted persisted.

(** One of the two [if] blocks of [updateProduct]. *)
Definition reconcile (k : assoc) (e : ProductInterface) (p : Persisted) : M unit :=
  if changed (wanted k (entity e)) (persisted k p) then
    Repo.delete (joinTable k) [("productId", Some (VNum (entity_id e)))];;
    for_of (wanted k (entity e)) (associate k (entity_id e))
  else mret tt.

(** [updateProduct(entity)].  The row is patched with
    [{ brandId: brandName[0].id, ...rest }], where the properties of [rest]
    come last and so prevail. *)
Definition updateProduct (e : ProductInterface) : M unit :=
  let rest := <["id" := VNum (entity_id e)]> (rest (entity e)) in
  brandName ← Repo.find TBrand [("name", Some (VStr (brand (entity e))))];
  (* prevent changing product store *)
  let rest := base.delete "storeId" rest in
  brandId ← first_prop brandName "id";
  Repo.update TProduct (rest ∪ with_prop "brandId" brandId ∅);;
  product ← ProductRepository.getById (entity_id e);
  match product with
  | None => throw (Error "Product not found")
  | Some product =>
      reconcile Categories e product;;
      reconcile Sizes e product
  end.

End ProductDBRepository.

(** ** ProductController *)

Module ProductController.

(** The [catch] block both actions share. *)
Definition handler {A} (e : error) : M A :=
  UnitOfWork.rollbackTransaction;;
  UnitOfWork.commitTransaction;;
  throw (Error (toString e)).

(** The loop of [post], which collects the products read back. *)
Fixpoint insertAll (products : list Product) (id : value) : M (list (option Persisted)) :=
  match products with
  | [] => mret []
  | product :: products' =>
      insertId ← ProductDBRepository.insertProduct product id;
      newProduct ← ProductRepository.getById insertId;
      resultProducts ← insertAll products' id;
      mret (newProduct :: resultProducts)
  end.

(** [post(products)]; [idManager] is the id of the authenticated caller. *)
Definition post (idManager : Z) (products : list Product) : M (list (option Persisted)) :=
  stores ← Repo.find TStore [("managerId", Some (VNum idManager))];
  id ← first_prop stores "id";
  if negb (truthy id) then throw (Error "Store not found")
  else
    match id with
    | Some id =>
        UnitOfWork.beginTransaction;;
        resultProducts ← try_catch (insertAll products id) handler;
        UnitOfWork.commitTransaction;;
        mret resultProducts
    | None => throw (Error "Store not found")
    end.

(** [update(entity)] *)
Definition update (e : ProductInterface) : M (option Persisted) :=
  UnitOfWork.beginTransaction;;
  try_catch (ProductDBRepository.updateProduct e) handler;;
  UnitOfWork.commitTransaction;;
  ProductRepository.getById (entity_id e).

End ProductController.

(** ** StoreController *)

Module StoreController.

Definition defaultColors : Colors :=
  mkColors (Some (mkColor 12 12 12)) (Some (mkColor 240 240 240)).

(** [createStore(store)]; the result is the new store as read back.  Only
    [colors] is deleted from the payload before it is inserted: a
    [products] array stays on it and reaches [insertOne]. *)
Definition createStore (st : Store) : M (option Row) :=
  let colors := colors st in
  insertId ← Repo.insertOne TStore (uncolored st);
  let colors := match colors with Some c => c | None => defaultColors end in
  let primary :=
    <["type" := VStr "PRIMARY"]> (<["storeId" := VNum insertId]> (spread (primary colors))) in
  let secondary :=
    <["type" := VStr "SECONDARY"]> (<["storeId" := VNum insertId]> (spread (secondary colors))) in
  Repo.insertOne TStoreColor primary;;
  Repo.insertOne TStoreColor secondary;;
  Repo.getById TStore insertId.

(** [colors.primary] / [colors.secondary] on a [colors] that may be
    [undefined]. *)
Definition member (colors : option Colors) (p : string) (proj : Colors → option Color)
  : M (option Color) :=
  match colors with
  | None => throw (TypeError p)
  | Some c => mret (proj c)
  end.

(** One of the two blocks [if (colors.primary) { ... }] and
    [if (colors.secondary) { ... }] of [update]. *)
Definition updateColor (idStore : option value) (type : string) (c : option Color) : M unit :=
  match c with
  | Some _ =>
      found ← Repo.find TStoreColor [("storeId", idStore); ("type", Some (VStr type))];
      idColor ← first_prop found "id";
      Repo.update TStoreColor (with_prop "id" idColor (spread c))
  | None => mret tt
  end.

(** [update(store)]; [idManager] is the id of the authenticated caller. *)
Definition update (idManager : Z) (st : Store) : M unit :=
  stores ← Repo.find TStore [("managerId", Some (VNum idManager))];
  idStore ← first_prop stores "id";
  let colors := colors st in
  Repo.update TStore (with_prop "id" idStore (scalars st));;
  primary ← member colors "primary" primary;
  updateColor idStore "PRIMARY" primary;;
  secondary ← member colors "secondary" secondary;
  updateColor idStore "SECONDARY" secondary.

End StoreController.

(** ** The remaining actions of the two controllers *)

(** [String.prototype.toLowerCase], on the letters A to Z; every other
    character is left as it is. *)
Definition lower (c : Ascii.ascii) : Ascii.ascii :=
  let n := Ascii.nat_of_ascii c in
  if ((65 <=? n) && (n <=? 90))%nat then Ascii.ascii_of_nat (n + 32) else c.

Fixpoint toLowerCase (s : string) : string :=
  match s with
  | EmptyString => EmptyString
  | String c s' => String (lower c) (toLowerCase s')
  end.

(** What [StoreController.getById] answers, [{ ...store, products, colors }]:
    the properties of the store row other than the two written after the
    spread, and those two. *)
Record StoreView := mkStoreView {
  view_store : Row;
  view_products : list Persisted;
  view_colors : gmap string Row;
}.

Module StoreActions.

Section GetById.

(** [ProductRepository.find] is not part of the sources read here; the
    action is modelled for any such lookup. *)
Variable productFind : Criteria → M (list Persisted).

(** [{ hue: color.hue, sat: color.sat, light: color.light }] *)
Definition colorOf (color : Row) : Row :=
  with_prop "light" (color !! "light")
    (with_prop "sat" (color !! "sat") (with_prop "hue" (color !! "hue") ∅)).

(** The loop over [colorsResponse], which fills [colorsObj] slot by slot;
    a row without a string [type] makes [toLowerCase] throw. *)
Fixpoint collect (colorsResponse : list Row) (colorsObj : gmap string Row)
  : M (gmap string Row) :=
  match colorsResponse with
  | [] => mret colorsObj
  | color :: colorsResponse' =>
      match color !! "type" with
      | Some (VStr type) =>
          collect colorsResponse' (<[toLowerCase type := colorOf color]> colorsObj)
      | _ => throw (TypeError "toLowerCase")
      end
  end.

(** [getById(storeId)] *)
Definition getById (storeId : Z) : M StoreView :=
  store ← Repo.getById TStore storeId;
  products ← try_catch
    (productFind [("storeId", Some (VNum storeId)); ("status", Some (VNum 1))])
    (λ _, mret []);
  colorsResponse ← Repo.find TStoreColor [("storeId", Some (VNum storeId))];
  colorsObj ← collect colorsResponse ∅;
  mret (mkStoreView (base.delete "colors" (base.delete "products" (default ∅ store)))
          products colorsObj).

End GetById.

(** [disableStore(store)] *)
Definition disableStore (st : Store) : M unit :=
  Repo.update TStore (with_prop "id" (scalars st !! "id") {[ "status" := VNum 0 ]}).

End StoreActions.

Module ProductActions.

(** [getById(productId)] *)
Definition getById (productId : Z) : M Persisted :=
  product ← ProductRepository.getById productId;
  match product with
  | None => throw (Error "Product not found")
  | Some product => mret product
  end.

(** [delete(product)] *)
Definition delete (product : ProductInterface) : M unit :=
  Repo.update TProduct (<["id" := VNum (entity_id product)]> {[ "status" := VNum 0 ]}).

End ProductActions.

(** ** Vocabulary of the statements *)

(** A call to the unit of work. *)
Definition is_uow (c : call) : bool :=
  match c with
  | Begin | Commit | Rollback => true
  | _ => false
  end.

(** A computation is [plain] when it issues no unit-of-work call and leaves
    the open scope as it found it. *)
Definition plain {A} (m : M A) : Prop :=
  ∀ s, filter is_uow (calls (m s)) = [] ∧ scope (final (m s)) = scope s.

(** The scope is closed exactly once: [begin], then one terminal call. *)
Definition closed_once (l : list call) : Prop :=
  filter is_uow l = [Begin; Commit] ∨ filter is_uow l = [Begin; Rollback].

(** What the two actions issue on the scope they open. *)
Definition scope_calls {A} (run : result A * state * list call) : Prop :=
  match outcome run with
  | Ok _ => filter is_uow (calls run) = [Begin; Commit]
  | Throw _ => filter is_uow (calls run) = [Begin; Rollback; Commit]
  end.

(** The exact-name lookup of [associate], on the rows of a reference table. *)
Definition lookup_name (refs : list Row) (name : string) : list Row :=
  filter (Repo.Matches [("name", Some (VStr name))]) refs.

(** The join row [associate] inserts for the reference row [r]. *)
Definition joinRow (k : assoc) (productId : Z) (r : Row) : Row :=
  with_prop (foreignKey k) (r !! "id") {[ "productId" := VNum productId ]}.

(** The rows of [k]'s join table that belong to other products. *)
Definition others (k : assoc) (productId : Z) (d : Db) : list Row :=
  filter (λ r, ¬ Repo.Matches [("productId", Some (VNum productId))] r) (get (joinTable k) d).

(** The reference rows found for the names up to the first one that has
    none, and whether every name had one. *)
Fixpoint resolve (refs : list Row) (names : list string) : list Row * bool :=
  match names with
  | [] => ([], true)
  | name :: names' =>
      match lookup_name refs name with
      | [] => ([], false)
      | r :: _ => let '(rows, all) := resolve refs names' in (r :: rows, all)
      end
  end.

(** Reference rows are identified by their [id]: each has one, and no two
    share it. *)
Definition identified (refs : list Row) : Prop :=
  NoDup ((.!! "id") <$> refs) ∧ Forall (λ r, is_Some (r !! "id")) refs.

#[global] Instance identified_dec refs : Decision (identified refs).
Proof. unfold identified. apply _. Defined.

(** The patch [updateProduct] writes: the payload's scalar properties and
    its [id], without [storeId], and the [brandId] of the brand row found
    unless the payload carries one of its own. *)
Definition patch (e : ProductInterface) (b : Row) : Row :=
  base.delete "storeId" (<["id" := VNum (entity_id e)]> (rest (entity e)))
    ∪ with_prop "brandId" (b !! "id") ∅.

(** The state once the scalar row has been written. *)
Definition written (e : ProductInterface) (b : Row) (s : state) : state :=
  mkState (set TProduct (Repo.patched (patch e b) <$> db_product (tables s)) (tables s))
          (scope s).

(** The product as [getById] reads it back. *)
Definition readBack (e : ProductInterface) (s : state) : option Persisted :=
  (λ r, mkPersisted r
          (ProductRepository.names Categories (entity_id e) (tables s))
          (ProductRepository.names Sizes (entity_id e) (tables s)))
    <$> head (filter (Repo.Matches [("id", Some (VNum (entity_id e)))]) (db_product (tables s))).

(** A write to table [t]. *)
Definition touches (t : table) (c : call) : bool :=
  match c with
  | Insert t' _ | Update t' _ | Delete t' _ => bool_decide (t' = t)
  | _ => false
  end.

(** A request to the store controller. *)
Inductive request :=
  | CreateStore (st : Store)
  | UpdateStore (idManager : Z) (st : Store).

Definition serve (rq : request) (s : state) : state :=
  match rq with
  | CreateStore st => final (StoreController.createStore st s)
  | UpdateStore idManager st => final (StoreController.update idManager st s)
  end.

Definition serve_all (rqs : list request) (s : state) : state :=
  foldl (λ s rq, serve rq s) s rqs.

(** The colour rows that reference the store [v]. *)
Definition colorsOf (v : value) (d : Db) : list Row :=
  filter (Repo.Matches [("storeId", Some v)]) (db_storeColor d).

Definition ofType (type : string) (r : Row) : Prop := r !! "type" = Some (VStr type).

#[global] Instance ofType_dec type r : Decision (ofType type r).
Proof. unfold ofType. apply _. Defined.

(** Every colour row references a store id already handed out, and the rows
    of one store are none, or a PRIMARY row followed by a SECONDARY row. *)
Definition paired (d : Db) : Prop :=
  Forall (λ r, ∃ i, r !! "storeId" = Some (VNum i) ∧ i < Repo.nextId (db_store d))
         (db_storeColor d)
  ∧ ∀ v, colorsOf v d = []
         ∨ ∃ p q, colorsOf v d = [p; q] ∧ ofType "PRIMARY" p ∧ ofType "SECONDARY" q.

(** A change to a colour row that leaves its store and its slot alone. *)
Definition keeps (g : Row → Row) : Prop :=
  ∀ r, g r !! "storeId" = r !! "storeId" ∧ g r !! "type" = r !! "type".

(** A change to a colour row made in place: the row keeps its id, its
    store and its slot. *)
Definition in_place (g : Row → Row) : Prop :=
  ∀ r, g r !! "id" = r !! "id" ∧ g r !! "storeId" = r !! "storeId"
       ∧ g r !! "type" = r !! "type".

(** Every join row references a product id already handed out. *)
Definition joins_bounded (d : Db) : Prop :=
  ∀ k, Forall (λ j, ∃ i, j !! "productId" = Some (VNum i) ∧ i < Repo.nextId (db_product d))
              (get (joinTable k) d).

(** A product of the request next to what [post] answers for it. *)
Definition answered (id : value) (product : Product) (answer : option Persisted) : Prop :=
  ∃ r, answer = Some (mkPersisted r (categories product) (sizes product))
       ∧ r !! "storeId" = Some id.

(** What a colour payload does to the colour rows, [x] being the row of
    its slot: the rows carrying [x]'s id take the payload's hue, sat and
    light, and no payload changes nothing. *)
Definition recolor (o : option Color) (x : Row) : Row → Row :=
  match o with
  | Some c => Repo.patched (with_prop "id" (x !! "id") (spread (Some c)))
  | None => λ r, r
  end.

(** ** A small shop, for the scenarios

    One brand, two categories, one size, and one store (id 7) managed by
    user 3. *)

Module Shop.

Definition named (i : Z) (n : string) : Row := {[ "id" := VNum i; "name" := VStr n ]}.

Definition db0 : Db :=
  mkDb [named 1 "Nike"] [named 1 "Shoes"; named 2 "Sale"] [named 1 "M"]
       [] [] []
       [ {[ "id" := VNum 7; "name" := VStr "Corner"; "managerId" := VNum 3 ]} ] [].

Definition s0 : state := mkState db0 None.

(** The scenario product: categories Shoes and Sale, size M, brand Nike. *)
Definition air : Product :=
  mkProduct ["Shoes"; "Sale"] ["M"] "Nike" {[ "name" := VStr "Air"; "price" := VNum 90 ]}.

(** Its second category does not exist. *)
Definition bad_category : Product :=
  mkProduct ["Shoes"; "Boots"] ["M"] "Nike" {[ "name" := VStr "Air" ]}.

(** Its brand does not exist. *)
Definition bad_brand : Product :=
  mkProduct ["Shoes"] ["M"] "Acme" {[ "name" := VStr "Air" ]}.

(** The shop once [air] has been created: it is product 1. *)
Definition s1 : state := final (ProductController.post 3 [air] s0).

(** The row of product 1 in [s1]. *)
Definition air_row : Row :=
  {[ "id" := VNum 1; "brandId" := VNum 1; "storeId" := VNum 7;
     "name" := VStr "Air"; "price" := VNum 90 ]}.

(** Update payloads for product 1: the same associations; one category
    fewer; another store. *)
Definition unchanged : ProductInterface := mkEntity 1 air.

Definition shrunk : ProductInterface :=
  mkEntity 1 (mkProduct ["Shoes"] ["M"] "Nike" {[ "name" := VStr "Air" ]}).

Definition moved : ProductInterface :=
  mkEntity 1 (mkProduct ["Shoes"; "Sale"] ["M"] "Nike"
                {[ "name" := VStr "Air Max"; "storeId" := VNum 8 ]}).


(** The store of manager 3, a store payload without colours, and one with
    a primary colour only. *)
Definition corner : Row := {[ "id" := VNum 7; "name" := VStr "Corner"; "managerId" := VNum 3 ]}.

Definition renamed : Row := {[ "name" := VStr "Corner Shop" ]}.

(** A stand-in for [ProductRepository.find], which is not part of the
    sources read here: the product rows that match, each with its names. *)
Definition productFind (c : Criteria) : M (list Persisted) := λ s,
  (Ok ((λ r, mkPersisted r
               (ProductRepository.names Categories (Repo.idOf r) (tables s))
               (ProductRepository.names Sizes (Repo.idOf r) (tables s)))
         <$> filter (Repo.Matches c) (db_product (tables s))),
   s, []).

(** A store payload with a primary colour only, and the shop once user 5 has
    been given a store (id 8) with the default colours. *)
Definition teal : Color := mkColor 180 50 40.

(** A store payload that carries a product besides its one colour. *)
Definition stocked : Store :=
  mkStore renamed (Some (mkColors (Some teal) None)) (Some [air]).

Definition annex : Store :=
  mkStore {[ "name" := VStr "Annex"; "managerId" := VNum 5 ]} None None.

Definition s2 : state := final (StoreController.createStore annex s0).

Definition annex_row : Row :=
  {[ "id" := VNum 8; "name" := VStr "Annex"; "managerId" := VNum 5 ]}.

Definition annex_primary : Row :=
  {[ "id" := VNum 1; "type" := VStr "PRIMARY"; "storeId" := VNum 8;
     "hue" := VNum 12; "sat" := VNum 12; "light" := VNum 12 ]}.

Definition annex_secondary : Row :=
  {[ "id" := VNum 2; "type" := VStr "SECONDARY"; "storeId" := VNum 8;
     "hue" := VNum 240; "sat" := VNum 240; "light" := VNum 240 ]}.

(** Update payloads for product 1 with an unknown brand, for a product that
    does not exist, and with no category at all. *)
Definition unbranded : ProductInterface :=
  mkEntity 1 (mkProduct ["Shoes"; "Sale"] ["M"] "Acme" {[ "name" := VStr "Air" ]}).

Definition missing : ProductInterface := mkEntity 99 air.


End Shop.

(** * Properties *)

(** ** Tables *)

Section Tables.

Lemma get_set (t : table) (rows : list Row) (d : Db) : get t (set t rows d) = rows.
Proof. by destruct t. Qed.

Lemma get_set_ne (t u : table) (rows : list Row) (d : Db) :
  t ≠ u → get t (set u rows d) = get t d.
Proof. by destruct t, u. Qed.

Lemma set_get (t : table) (d : Db) : set t (get t d) d = d.
Proof. by destruct t, d. Qed.

Lemma set_set (t : table) (rows rows' : list Row) (d : Db) :
  set t rows (set t rows' d) = set t rows d.
Proof. by destruct t. Qed.

Lemma nextId_pos (rows : list Row) : 1 ≤ Repo.nextId rows.
Proof.
  unfold Repo.nextId. induction rows as [|r rows IH]; simpl; lia.
Qed.

Lemma nextId_snoc (rows : list Row) (r : Row) :
  Repo.nextId (rows ++ [r]) = Z.max (Repo.idOf r + 1) (Repo.nextId rows).
Proof.
  unfold Repo.nextId. induction rows as [|r' rows IH]; simpl; lia.
Qed.

Lemma idOf_insert (i : Z) (r : Row) : Repo.idOf (<["id" := VNum i]> r) = i.
Proof. unfold Repo.idOf. by rewrite lookup_insert_eq. Qed.

End Tables.

(** Unfolds one layer of the monad and of the repository calls. *)
Ltac step :=
  unfold mbind, mret, M_bind, M_ret, throw,
    Repo.getById, Repo.find, Repo.insertOne, Repo.update, Repo.delete,
    UnitOfWork.beginTransaction, UnitOfWork.commitTransaction,
    UnitOfWork.rollbackTransaction, outcome, final, calls; simpl.

(** ** Store colours on creation *)

(** C6. Creating a store whose payload has no [colors] inserts, after the
    store row, exactly two colour rows that reference the new store's id:
    a PRIMARY one with hue/sat/light 12/12/12 and a SECONDARY one with
    240/240/240.  The store row inserted is the payload's scalar
    properties together with its [products] array, when it has one. *)
Theorem createStore_default_colors
    (s : state) (fields : Row) (ps : option (list Product)) :
  let run := StoreController.createStore (mkStore fields None ps) s in
  let storeId := Repo.nextId (db_store (tables s)) in
  let colorId := Repo.nextId (db_storeColor (tables s)) in
  let inserted : Row :=
    match ps with
    | Some l => <["products" := VArr (objectOf <$> l)]> fields
    | None => fields
    end in
  let color (i : Z) (type : string) (n : Z) : Row :=
    <["id" := VNum i]> (<["type" := VStr type]> (<["storeId" := VNum storeId]>
      {[ "hue" := VNum n; "sat" := VNum n; "light" := VNum n ]})) in
  calls run =
    [ Insert TStore (<["id" := VNum storeId]> inserted);
      Insert TStoreColor (color colorId "PRIMARY" 12);
      Insert TStoreColor (color (colorId + 1) "SECONDARY" 240) ]
  ∧ db_storeColor (tables (final run)) =
      db_storeColor (tables s)
        ++ [color colorId "PRIMARY" 12; color (colorId + 1) "SECONDARY" 240]
  ∧ db_store (tables (final run)) =
      db_store (tables s) ++ [<["id" := VNum storeId]> inserted].
Proof.
  intros run storeId colorId inserted color. subst run.
  unfold StoreController.createStore, uncolored. step. fold inserted.
  rewrite nextId_snoc, idOf_insert.
  fold storeId colorId.
  replace (Z.max (colorId + 1) colorId) with (colorId + 1) by lia.
  rewrite <- app_assoc. done.
Qed.

(** ** Store update: colours *)

Section StoreUpdate.

Variables (s : state) (idManager : Z) (fields : Row) (ps : option (list Product)).

(** The store the caller manages, as [update] resolves it. *)
Let managed : list Row :=
  filter (Repo.Matches [("managerId", Some (VNum idManager))]) (db_store (tables s)).

(** The state once the store's scalar row has been written. *)
Let written (st0 : Row) : state :=
  mkState
    (set TStore (Repo.patched (with_prop "id" (st0 !! "id") fields) <$> db_store (tables s))
       (tables s))
    (scope s).

(** X4. A store update by a caller who manages no store fails on the
    destructuring of the empty store lookup, with the runtime's [TypeError]:
    no call has been issued and the state is untouched, whatever the
    payload. *)
Lemma update_no_store (c : option Colors) :
  managed = [] →
  StoreController.update idManager (mkStore fields c ps) s = (Throw (TypeError "id"), s, []).
Proof.
  subst managed. intros H. unfold StoreController.update. step. by rewrite H.
Qed.

(** C10. When the payload has no [colors], the update of a caller who
    manages a store writes the store's scalar row and then fails reading
    [primary] from [undefined]: the only call issued is that row update, no
    transaction scope is opened and nothing discards the write, so the
    changed row stays while the colour table is untouched. *)
Theorem update_without_colors (st0 : Row) (others : list Row) :
  managed = st0 :: others →
  let run := StoreController.update idManager (mkStore fields None ps) s in
  outcome run = Throw (TypeError "primary")
  ∧ calls run = [Update TStore (with_prop "id" (st0 !! "id") fields)]
  ∧ final run = written st0
  ∧ db_storeColor (tables (final run)) = db_storeColor (tables s).
Proof.
  subst managed written. intros H. unfold StoreController.update. step.
  rewrite H. simpl. done.
Qed.

(** C8 (what the code does). A colour payload for a slot whose row is
    missing makes [update] fail on the unguarded [[0]] of the empty lookup:
    the error is the runtime's [TypeError], no explicit error is thrown.
    No colour row is created, and the store's scalar row has already been
    written. *)
Theorem update_missing_color_row (st0 : Row) (others : list Row) (c : Color)
    (p q : option Color) (type : string) :
  managed = st0 :: others →
  (p = Some c ∧ type = "PRIMARY") ∨ (p = None ∧ q = Some c ∧ type = "SECONDARY") →
  filter (Repo.Matches [("storeId", st0 !! "id"); ("type", Some (VStr type))])
    (db_storeColor (tables s)) = [] →
  let run := StoreController.update idManager (mkStore fields (Some (mkColors p q)) ps) s in
  outcome run = Throw (TypeError "id")
  ∧ (∀ msg, outcome run ≠ Throw (Error msg))
  ∧ calls run = [Update TStore (with_prop "id" (st0 !! "id") fields)]
  ∧ final run = written st0
  ∧ db_storeColor (tables (final run)) = db_storeColor (tables s).
Proof.
  subst managed written. intros H Hslot Hnone.
  unfold StoreController.update, StoreController.updateColor. step.
  rewrite H. simpl.
  destruct Hslot as [[-> ->]|(-> & -> & ->)]; step; rewrite Hnone; simpl; done.
Qed.

End StoreUpdate.

(** ** Calls that leave the transaction scope alone *)

Create HintDb plain.

Section Plain.

Context {A B : Type}.

Lemma plain_ret (a : A) : plain (mret a).
Proof. done. Qed.

Lemma plain_throw (e : error) : plain (@throw A e).
Proof. done. Qed.

Lemma plain_bind (m : M A) (f : A → M B) :
  plain m → (∀ a, plain (f a)) → plain (m ≫= f).
Proof.
  intros Hm Hf s. destruct (Hm s) as [Hc Hs]. revert Hc Hs.
  unfold mbind, M_bind, calls, final. destruct (m s) as [[[a|e] s1] c1]; simpl; [|done].
  intros Hc Hs. destruct (Hf a s1) as [Hc' Hs']. revert Hc' Hs'.
  unfold calls, final. destruct (f a s1) as [[r s2] c2]; simpl.
  intros Hc' Hs'. rewrite filter_app, Hc, Hc'. split; [done|congruence].
Qed.

Lemma plain_if (b : bool) (m1 m2 : M A) : plain m1 → plain m2 → plain (if b then m1 else m2).
Proof. by destruct b. Qed.

End Plain.

Lemma plain_find t c : plain (Repo.find t c).
Proof. done. Qed.

Lemma plain_insertOne t r : plain (Repo.insertOne t r).
Proof. done. Qed.

Lemma plain_update t r : plain (Repo.update t r).
Proof. done. Qed.

Lemma plain_delete t c : plain (Repo.delete t c).
Proof. done. Qed.

Lemma plain_getById i : plain (ProductRepository.getById i).
Proof. done. Qed.

Lemma plain_first_prop arr p : plain (first_prop arr p).
Proof. by destruct arr. Qed.

#[global] Hint Resolve plain_ret plain_throw plain_if plain_find plain_insertOne
  plain_update plain_delete plain_getById plain_first_prop : plain.
#[global] Hint Extern 2 (plain (_ ≫= _)) => apply plain_bind; [|intros] : plain.

Lemma plain_for_of {A} (xs : list A) (body : A → M unit) :
  (∀ x, plain (body x)) → plain (for_of xs body).
Proof. intros H. induction xs; simpl; auto with plain. Qed.

Lemma plain_associate k i name : plain (ProductDBRepository.associate k i name).
Proof. unfold ProductDBRepository.associate. auto 6 with plain. Qed.

#[global] Hint Resolve plain_for_of plain_associate : plain.

Lemma plain_insertProduct p i : plain (ProductDBRepository.insertProduct p i).
Proof. unfold ProductDBRepository.insertProduct. auto 10 with plain. Qed.

Lemma plain_reconcile k e p : plain (ProductDBRepository.reconcile k e p).
Proof. unfold ProductDBRepository.reconcile. auto 6 with plain. Qed.

#[global] Hint Resolve plain_insertProduct plain_reconcile : plain.

Lemma plain_updateProduct e : plain (ProductDBRepository.updateProduct e).
Proof.
  unfold ProductDBRepository.updateProduct.
  repeat (apply plain_bind; [auto with plain|intros]).
  match goal with |- plain (match ?p with _ => _ end) => destruct p end;
    auto with plain.
Qed.

Lemma plain_insertAll ps i : plain (ProductController.insertAll ps i).
Proof. induction ps; simpl; auto 10 with plain. Qed.

#[global] Hint Resolve plain_updateProduct plain_insertAll : plain.

(** ** Transactions around product writes *)

Section Guarded.

Context {A : Type} (body : M A) (s : state) (d : Db).
Hypothesis body_plain : plain body.
Hypothesis scope_open : scope s = Some d.

(** A [try] block that succeeds is the block itself. *)
Lemma guarded_ok (a : A) :
  outcome (body s) = Ok a →
  try_catch body ProductController.handler s = body s.
Proof.
  unfold try_catch, outcome. by destruct (body s) as [[[?|?] ?] ?].
Qed.

(** A [try] block that throws is rolled back to where the scope began,
    committed, and the error is thrown again as a plain [Error]. *)
Lemma guarded_throw (e : error) :
  outcome (body s) = Throw e →
  let run := try_catch body ProductController.handler s in
  outcome run = Throw (Error (toString e))
  ∧ final run = mkState d None
  ∧ filter is_uow (calls run) = [Rollback; Commit].
Proof.
  destruct (body_plain s) as [Hc Hs]. revert Hc Hs.
  unfold try_catch, outcome, final, calls.
  destruct (body s) as [[[?|e'] s1] c1]; simpl; [done|].
  intros Hc Hs [= ->]. rewrite scope_open in Hs.
  unfold ProductController.handler. step. rewrite Hs. simpl.
  by rewrite filter_app, Hc.
Qed.

End Guarded.

Lemma post_cases (s : state) (idManager : Z) (products : list Product) :
  let run := ProductController.post idManager products s in
  (∃ e, run = (Throw e, s, []))
  ∨ (∃ a, outcome run = Ok a ∧ filter is_uow (calls run) = [Begin; Commit])
  ∨ (∃ e, outcome run = Throw e ∧ tables (final run) = tables s
          ∧ scope (final run) = None
          ∧ filter is_uow (calls run) = [Begin; Rollback; Commit]).
Proof.
  unfold ProductController.post. step.
  destruct (filter _ (db_store (tables s))) as [|st0 ?]; simpl; [eauto|].
  destruct (st0 !! "id") as [i|] eqn:Hid; simpl; [|eauto].
  destruct (truthy (Some i)); simpl; [|eauto].
  set (s1 := mkState (tables s) (Some (tables s))).
  pose proof (plain_insertAll products i) as Hp.
  destruct (outcome (ProductController.insertAll products i s1)) as [a|e] eqn:Hout.
  - right; left. rewrite (guarded_ok _ _ a Hout).
    destruct (Hp s1) as [Hc _]. revert Hout Hc. unfold outcome, calls.
    destruct (ProductController.insertAll products i s1) as [[? ?] c]; simpl.
    intros -> Hc. exists a. split; [done|].
    simpl. by rewrite filter_cons, filter_app, Hc.
  - right; right.
    destruct (guarded_throw _ s1 (tables s) Hp eq_refl e Hout) as (Ho & Hf & Hc).
    revert Ho Hf Hc. unfold outcome, final, calls.
    destruct (try_catch _ _ s1) as [[? ?] c]; simpl. intros -> -> Hc.
    exists (Error (toString e)). simpl. by rewrite filter_cons, Hc.
Qed.

Lemma update_cases (s : state) (e : ProductInterface) :
  let run := ProductController.update e s in
  (∃ a, outcome run = Ok a ∧ filter is_uow (calls run) = [Begin; Commit])
  ∨ (∃ err, outcome run = Throw err ∧ tables (final run) = tables s
          ∧ scope (final run) = None
          ∧ filter is_uow (calls run) = [Begin; Rollback; Commit]).
Proof.
  unfold ProductController.update. step.
  set (s1 := mkState (tables s) (Some (tables s))).
  pose proof (plain_updateProduct e) as Hp.
  destruct (outcome (ProductDBRepository.updateProduct e s1)) as [a|err] eqn:Hout.
  - left. rewrite (guarded_ok _ _ a Hout).
    destruct (Hp s1) as [Hc _]. revert Hout Hc. unfold outcome, calls.
    destruct (ProductDBRepository.updateProduct e s1) as [[? ?] c]; simpl.
    intros -> Hc. unfold ProductRepository.getById. simpl.
    eexists. split; [done|]. simpl. by rewrite filter_cons, !filter_app, Hc.
  - right.
    destruct (guarded_throw _ s1 (tables s) Hp eq_refl err Hout) as (Ho & Hf & Hc).
    revert Ho Hf Hc. unfold outcome, final, calls.
    destruct (try_catch _ _ s1) as [[? ?] c]; simpl. intros -> -> Hc.
    exists (Error (toString err)). simpl. by rewrite filter_cons, Hc.
Qed.

(** C3. Product creation is atomic: whenever [post] fails, whichever brand,
    category or size lookup of whichever product caused it, the tables are
    afterwards exactly what they were before the call, so neither the product
    row nor any join row inserted on the way remains; and no scope is left
    open when one had been begun. *)
Theorem post_atomic (s : state) (idManager : Z) (products : list Product) (e : error) :
  let run := ProductController.post idManager products s in
  outcome run = Throw e →
  tables (final run) = tables s
  ∧ (Begin ∈ calls run → Rollback ∈ calls run ∧ scope (final run) = None).
Proof.
  intros run Hthrow. subst run.
  destruct (post_cases s idManager products) as [[e' H]|[(a & H & _)|(e' & _ & Ht & Hs & Hc)]].
  - rewrite H. simpl. split; [done|]. by intros ?%elem_of_nil.
  - congruence.
  - split; [done|]. intros _. split; [|done].
    assert (Rollback ∈ filter is_uow (calls (ProductController.post idManager products s))) as Hin
      by (rewrite Hc; set_solver).
    by apply list_elem_of_filter in Hin as [_ ?].
Qed.

(** C4 (as amended). On the scope that product create or product update
    opens, the success path issues exactly one terminal call, the commit;
    the error path issues the rollback and then also a commit, before the
    error is thrown again.  A create that fails before its scope is opened
    issues no call at all. *)
Theorem scope_terminal_calls
    (s : state) (idManager : Z) (products : list Product) (e : ProductInterface) :
  let create := ProductController.post idManager products s in
  let update := ProductController.update e s in
  (scope_calls create ∨ ∃ err, create = (Throw err, s, []))
  ∧ scope_calls update.
Proof.
  simpl. unfold scope_calls. split.
  - destruct (post_cases s idManager products) as [[e' H]|[(a & H & Hc)|(e' & H & _ & _ & Hc)]];
      [right; eauto|left; by rewrite H..].
  - destruct (update_cases s e) as [(a & H & Hc)|(e' & H & _ & _ & Hc)]; by rewrite H.
Qed.

(** ** Resolving names and inserting join rows *)

Section Associate.

Variables (k : assoc) (productId : Z).

Lemma join_ref_ne : joinTable k ≠ refTable k.
Proof. by destruct k. Qed.

Lemma associate_run (name : string) (s : state) :
  ProductDBRepository.associate k productId name s =
  match lookup_name (get (refTable k) (tables s)) name with
  | [] => (Throw (Error (invalid k)), s, [])
  | r :: _ =>
      (Ok tt,
       mkState (set (joinTable k)
                  (get (joinTable k) (tables s) ++ [joinRow k productId r]) (tables s))
               (scope s),
       [Insert (joinTable k) (joinRow k productId r)])
  end.
Proof.
  unfold ProductDBRepository.associate, lookup_name. step.
  destruct (filter _ _) as [|r ?]; simpl; [done|].
  unfold joinRow. by destruct k.
Qed.

Lemma loop_run (names : list string) (s : state) :
  let found := resolve (get (refTable k) (tables s)) names in
  for_of names (ProductDBRepository.associate k productId) s =
  (if found.2 then Ok tt else Throw (Error (invalid k)),
   mkState (set (joinTable k)
              (get (joinTable k) (tables s) ++ (joinRow k productId <$> found.1)) (tables s))
           (scope s),
   Insert (joinTable k) ∘ joinRow k productId <$> found.1).
Proof.
  revert s. induction names as [|name names IH]; intros s; simpl.
  - rewrite app_nil_r, set_get. by destruct s.
  - unfold mbind, M_bind. rewrite associate_run.
    destruct (lookup_name _ name) as [|r ?] eqn:Hl; simpl.
    + rewrite app_nil_r, set_get. by destruct s.
    + rewrite IH. simpl.
      rewrite get_set_ne by (symmetry; apply join_ref_ne).
      destruct (resolve _ names) as [rows all]. simpl.
      by rewrite get_set, set_set, <- app_assoc.
Qed.

(** What [resolve] returns, in words. *)
Lemma resolve_spec (refs : list Row) (names : list string) :
  let found := resolve refs names in
  ∃ resolved : list string,
    Forall2 (λ name r, head (lookup_name refs name) = Some r) resolved found.1
    ∧ if found.2 then names = resolved
      else ∃ bad rest, names = resolved ++ bad :: rest ∧ lookup_name refs bad = [].
Proof.
  induction names as [|name names IH]; simpl.
  - by exists [].
  - destruct (lookup_name refs name) as [|r ?] eqn:Hl; simpl.
    + exists []. split; [done|]. by exists name, names.
    + destruct IH as (resolved & HF & Hall).
      destruct (resolve refs names) as [rows all]. simpl in *.
      exists (name :: resolved). split.
      * constructor; [by rewrite Hl|done].
      * destruct all; [by subst|].
        destruct Hall as (bad & rest & -> & ?). by exists bad, rest.
Qed.

End Associate.

(** ** Change detection *)

Lemma some_differs_false (index : nat) (wanted persisted : list string) :
  ProductDBRepository.some_differs index wanted persisted = false
  ↔ ∀ i val, wanted !! i = Some val → persisted !! (index + i)%nat = Some val.
Proof.
  revert index. induction wanted as [|val wanted IH]; intros index; simpl.
  - split; [|done]. intros _ i val'. by rewrite lookup_nil.
  - rewrite orb_false_iff, negb_false_iff, bool_decide_eq_true, IH. split.
    + intros [H0 H] [|i] val'; simpl.
      * intros [= <-]. by rewrite Nat.add_0_r.
      * intros Hi. rewrite <- Nat.add_succ_comm. by apply H.
    + intros H. split.
      * specialize (H 0%nat val eq_refl). by rewrite Nat.add_0_r in H.
      * intros i val' Hi. rewrite Nat.add_succ_comm. by apply H.
Qed.

(** The comparison of [updateProduct] detects exactly the lists that differ
    in length or at some position. *)
Lemma changed_iff (wanted persisted : list string) :
  ProductDBRepository.changed wanted persisted = true ↔ wanted ≠ persisted.
Proof.
  unfold ProductDBRepository.changed.
  destruct (ProductDBRepository.some_differs 0 wanted persisted) eqn:Hd.
  - rewrite orb_true_r. split; [|done]. intros _ ->.
    assert (ProductDBRepository.some_differs 0 persisted persisted = false) as H
      by (by apply some_differs_false).
    congruence.
  - rewrite orb_false_r, negb_true_iff, Nat.eqb_neq.
    pose proof (proj1 (some_differs_false _ _ _) Hd) as Hsame.
    split; [congruence|].
    intros Hne Hlen. apply Hne, list_eq_same_length with (length wanted); [done..|].
    intros i x y _ Hx Hy. apply Hsame in Hx. simpl in Hx. congruence.
Qed.

(** ** The association reconciler *)

Section Reconcile.

Variables (k : assoc) (e : ProductInterface) (p : Persisted) (s : state).

Let productId := entity_id e.
Let refs := get (refTable k) (tables s).

Lemma reconcile_run :
  ProductDBRepository.reconcile k e p s =
  if ProductDBRepository.changed (wanted k (entity e)) (persisted k p) then
    let found := resolve refs (wanted k (entity e)) in
    (if found.2 then Ok tt else Throw (Error (invalid k)),
     mkState (set (joinTable k)
                (others k productId (tables s) ++ (joinRow k productId <$> found.1))
                (tables s))
             (scope s),
     Delete (joinTable k) [("productId", Some (VNum productId))]
       :: (Insert (joinTable k) ∘ joinRow k productId <$> found.1))
  else (Ok tt, s, []).
Proof.
  unfold ProductDBRepository.reconcile.
  destruct (ProductDBRepository.changed _ _); [|done].
  unfold mbind, M_bind, Repo.delete. rewrite loop_run. simpl.
  rewrite get_set_ne by (symmetry; apply join_ref_ne).
  by rewrite get_set, set_set.
Qed.

(** The reconciler writes to its own join table only. *)
Lemma reconcile_frame (t : table) :
  t ≠ joinTable k →
  get t (tables (final (ProductDBRepository.reconcile k e p s))) = get t (tables s).
Proof.
  intros Ht. rewrite reconcile_run.
  destruct (ProductDBRepository.changed _ _); [|done].
  unfold final. simpl. by rewrite get_set_ne.
Qed.


End Reconcile.

(** The join row carries the product id and the id found. *)
Lemma joinRow_props (k : assoc) (productId : Z) (r : Row) :
  joinRow k productId r !! "productId" = Some (VNum productId)
  ∧ joinRow k productId r !! foreignKey k = r !! "id".
Proof.
  unfold joinRow, with_prop.
  destruct (r !! "id") as [i|] eqn:Hi; destruct k; simpl.
  all: rewrite ?lookup_insert_eq, ?lookup_delete_eq; split; try done.
  all: by rewrite ?lookup_insert_ne, ?lookup_delete_ne, ?lookup_singleton_eq by done.
Qed.

(** ** Reading the associations back *)

Lemma filter_none {A} (P : A → Prop) `{!∀ x, Decision (P x)} (l : list A) :
  (∀ x, x ∈ l → ¬ P x) → filter P l = [].
Proof.
  induction l as [|x l IH]; [done|]. intros HP.
  rewrite filter_cons_False by (apply HP; left). apply IH. intros y Hy. apply HP. by right.
Qed.

Lemma filter_all {A} (P : A → Prop) `{!∀ x, Decision (P x)} (l : list A) :
  (∀ x, x ∈ l → P x) → filter P l = l.
Proof.
  induction l as [|x l IH]; [done|]. intros HP.
  rewrite filter_cons_True by (apply HP; left). f_equal. apply IH. intros y Hy. apply HP. by right.
Qed.

Lemma identified_unique (refs : list Row) (r : Row) :
  identified refs → r ∈ refs →
  filter (λ r', is_Some (r !! "id") ∧ r' !! "id" = r !! "id") refs = [r].
Proof.
  intros [Hnd Hall]. induction refs as [|r0 refs IH]; [by intros ?%elem_of_nil|].
  apply NoDup_cons in Hnd as [Hnotin Hnd]. apply Forall_cons in Hall as [Hsome Hall].
  assert (∀ a b : Row, b ∈ refs → a !! "id" = b !! "id" → (.!! "id") a ∈ (.!! "id") <$> refs)
    as Hmem by (intros a b Hb ->; by apply list_elem_of_fmap_2).
  intros [->|Hin]%elem_of_cons.
  - rewrite filter_cons_True by done. f_equal.
    apply filter_none. intros r' Hr' [_ Heq].
    apply Hnotin. rewrite <- Heq. by apply list_elem_of_fmap_2.
  - rewrite filter_cons_False; [by apply IH|].
    intros [_ Heq]. apply Hnotin. rewrite Heq. by apply list_elem_of_fmap_2.
Qed.

Section ReadBack.

Variables (k : assoc) (productId : Z).

Lemma names_ext (d d' : Db) :
  get (joinTable k) d = get (joinTable k) d' →
  get (refTable k) d = get (refTable k) d' →
  ProductRepository.names k productId d = ProductRepository.names k productId d'.
Proof. unfold ProductRepository.names. by intros -> ->. Qed.

Lemma joinRow_matches (r : Row) :
  Repo.Matches [("productId", Some (VNum productId))] (joinRow k productId r).
Proof.
  unfold Repo.Matches. repeat constructor; simpl; [done|].
  apply joinRow_props.
Qed.

Lemma filter_joinRows (rows : list Row) :
  filter (Repo.Matches [("productId", Some (VNum productId))]) (joinRow k productId <$> rows)
  = joinRow k productId <$> rows.
Proof.
  apply filter_all. intros r (r0 & -> & _)%list_elem_of_fmap. apply joinRow_matches.
Qed.

Lemma filter_others (d : Db) :
  filter (Repo.Matches [("productId", Some (VNum productId))]) (others k productId d) = [].
Proof.
  apply filter_none. unfold others.
  by intros r [? _]%list_elem_of_filter.
Qed.

(** Deleting the product's rows again gives back the same other rows. *)
Lemma others_again (d d' : Db) (rows : list Row) :
  get (joinTable k) d' = others k productId d ++ (joinRow k productId <$> rows) →
  others k productId d' = others k productId d.
Proof.
  intros H. unfold others at 1. rewrite H, filter_app.
  replace (filter _ (joinRow k productId <$> rows)) with (@nil Row).
  - rewrite app_nil_r. unfold others. apply list_filter_filter_l. 
    intros r Hr. exact Hr.
  - symmetry. apply filter_none.
    intros r (r0 & -> & _)%list_elem_of_fmap Hn. apply Hn, joinRow_matches.
Qed.

(** Once the product's join rows are the ones inserted for [rows], the
    names read back are the names that were resolved. *)
Lemma names_after (d d' : Db) (resolved : list string) (rows : list Row) :
  identified (get (refTable k) d) →
  Forall2 (λ name r, head (lookup_name (get (refTable k) d) name) = Some r) resolved rows →
  get (joinTable k) d' = others k productId d ++ (joinRow k productId <$> rows) →
  get (refTable k) d' = get (refTable k) d →
  ProductRepository.names k productId d' = resolved.
Proof.
  intros Hwf HF Hjoin Href. unfold ProductRepository.names.
  rewrite Hjoin, Href, filter_app, filter_others, filter_joinRows. simpl.
  clear Hjoin. induction HF as [|name r resolved rows Hhead _ IH]; [done|].
  rewrite fmap_cons, bind_cons, IH.
  apply head_Some_elem_of in Hhead. unfold lookup_name in Hhead.
  apply list_elem_of_filter in Hhead as [Hm Hin].
  destruct (joinRow_props k productId r) as [_ ->].
  rewrite (identified_unique _ r Hwf Hin). simpl.
  unfold ProductRepository.nameOf.
  apply Forall_cons in Hm as [[_ Hname] _]. simpl in Hname. by rewrite Hname.
Qed.

End ReadBack.

(** ** Reconciling twice *)

Lemma changed_false (wanted persisted : list string) :
  ProductDBRepository.changed wanted persisted = false → wanted = persisted.
Proof.
  intros H. destruct (decide (wanted = persisted)) as [|Hne]; [done|].
  apply changed_iff in Hne. congruence.
Qed.

Lemma changed_same (names : list string) : ProductDBRepository.changed names names = false.
Proof.
  destruct (ProductDBRepository.changed names names) eqn:H; [|done].
  by apply changed_iff in H.
Qed.

(** A name read back is the name of a reference row. *)
Lemma names_exist (k : assoc) (productId : Z) (d : Db) (name : string) :
  name ∈ ProductRepository.names k productId d →
  lookup_name (get (refTable k) d) name ≠ [].
Proof.
  unfold ProductRepository.names.
  intros (j & (r & Hname & Hr)%list_elem_of_bind & _)%list_elem_of_bind.
  apply list_elem_of_filter in Hr as [_ Hr].
  unfold ProductRepository.nameOf in Hname.
  destruct (r !! "name") as [[|n| |]|] eqn:Hn; try by apply elem_of_nil in Hname.
  apply list_elem_of_singleton in Hname as ->.
  intros Hnil.
  assert (r ∈ lookup_name (get (refTable k) d) n) as Hin.
  { apply list_elem_of_filter. split; [|done].
    unfold Repo.Matches. by rewrite Forall_singleton. }
  rewrite Hnil in Hin. by apply elem_of_nil in Hin.
Qed.

Lemma resolve_all (refs : list Row) (names : list string) :
  Forall (λ name, lookup_name refs name ≠ []) names → (resolve refs names).2 = true.
Proof.
  induction 1 as [|name names Hname _ IH]; [done|]. simpl.
  destruct (lookup_name refs name); [done|].
  by destruct (resolve refs names).
Qed.

Section Again.

Variables (k : assoc) (e : ProductInterface) (p p' : Persisted) (s s' : state).

Let productId := entity_id e.
Let first := ProductDBRepository.reconcile k e p s.
Let second := ProductDBRepository.reconcile k e p' s'.

Hypothesis p_read : persisted k p = ProductRepository.names k productId (tables s).

(** A reconciliation that returns leaves the wanted names persisted, when
    the reference rows are identified by their ids. *)
Lemma reconcile_ok_names :
  identified (get (refTable k) (tables s)) →
  outcome first = Ok tt →
  ProductRepository.names k productId (tables (final first)) = wanted k (entity e).
Proof.
  intros refs_identified. subst first. rewrite reconcile_run.
  destruct (ProductDBRepository.changed _ _) eqn:Hch.
  - destruct (resolve_spec (get (refTable k) (tables s)) (wanted k (entity e)))
      as (resolved & HF & Hall).
    destruct (resolve _ _) as [rows all]. unfold outcome, final. simpl in *.
    destruct all; [|done]. intros _. subst resolved.
    apply names_after with (tables s) rows; [done..| |].
    + by rewrite get_set.
    + rewrite get_set_ne; [done|]. symmetry; apply join_ref_ne.
  - intros _. apply changed_false in Hch. unfold final. simpl. congruence.
Qed.

Hypothesis same_join :
  get (joinTable k) (tables s') = get (joinTable k) (tables (final first)).
Hypothesis same_refs : get (refTable k) (tables s') = get (refTable k) (tables s).
Hypothesis p'_read : persisted k p' = ProductRepository.names k productId (tables s').

(** Run again on the state the first run left (as far as this association's
    tables go), the reconciler changes nothing and ends as the first run
    did. *)
Lemma reconcile_again : final second = s' ∧ outcome second = outcome first.
Proof.
  revert same_join. subst first second. rewrite !reconcile_run.
  destruct (ProductDBRepository.changed _ (persisted k p)) eqn:Hch.
  - rewrite same_refs.
    destruct (resolve _ _) as [rows all] eqn:Hres. unfold outcome, final. simpl.
    rewrite get_set. intros Hjoin.
    destruct (ProductDBRepository.changed _ (persisted k p')) eqn:Hch'; simpl.
    + split; [|done]. fold productId in Hjoin |- *.
      rewrite (others_again k productId (tables s) (tables s') rows), <- Hjoin, set_get by done.
      by destruct s'.
    + split; [done|]. apply changed_false in Hch'.
      assert ((resolve (get (refTable k) (tables s)) (wanted k (entity e))).2 = true) as Hall.
      { apply resolve_all, Forall_forall. intros name Hname.
        rewrite <- same_refs. apply (names_exist k productId).
        by rewrite <- p'_read, <- Hch'. }
      rewrite Hres in Hall. simpl in Hall. by rewrite Hall.
  - unfold final at 1. simpl. intros Hjoin.
    apply changed_false in Hch.
    rewrite p'_read, (names_ext k productId (tables s') (tables s)), <- p_read, <- Hch,
      changed_same by done.
    done.
Qed.

End Again.

(** ** The product update, step by step *)

Lemma updateProduct_run (e : ProductInterface) (s : state) :
  ProductDBRepository.updateProduct e s =
  match lookup_name (db_brand (tables s)) (brand (entity e)) with
  | [] => (Throw (TypeError "id"), s, [])
  | b :: _ =>
      match readBack e (written e b s) with
      | None =>
          (Throw (Error "Product not found"), written e b s, [Update TProduct (patch e b)])
      | Some p =>
          let cats := ProductDBRepository.reconcile Categories e p (written e b s) in
          match outcome cats with
          | Throw err => (Throw err, final cats, Update TProduct (patch e b) :: calls cats)
          | Ok _ =>
              let szs := ProductDBRepository.reconcile Sizes e p (final cats) in
              (outcome szs, final szs, Update TProduct (patch e b) :: calls cats ++ calls szs)
          end
      end
  end.
Proof.
  unfold ProductDBRepository.updateProduct, lookup_name, readBack.
  unfold mbind, M_bind, Repo.find. simpl.
  destruct (filter _ (db_brand (tables s))) as [|b ?]; simpl; [done|].
  fold (patch e b). unfold ProductRepository.getById. simpl.
  fold (written e b s).
  destruct (head _) as [r|]; simpl; [|done].
  unfold outcome, final, calls.
  destruct (ProductDBRepository.reconcile Categories e _ _) as [[[[]|err] s2] c2]; simpl; [|done].
  by destruct (ProductDBRepository.reconcile Sizes e _ _) as [[? ?] ?].
Qed.

Lemma patched_again (P r : Row) : Repo.patched P (Repo.patched P r) = Repo.patched P r.
Proof.
  unfold Repo.patched. destruct (decide (_ ∧ r !! "id" = _)) as [[[i Hi] Hr]|Hn].
  - rewrite decide_True.
    + by rewrite (assoc_L (∪)), (idemp_L (∪)).
    + split; [by exists i|]. by rewrite (lookup_union_Some_l _ _ _ i).
  - by rewrite decide_False.
Qed.

Lemma written_again (e : ProductInterface) (b : Row) (s sf : state) :
  db_product (tables sf) = db_product (tables (written e b s)) →
  written e b sf = sf.
Proof.
  intros H. unfold written at 1. rewrite H. simpl. rewrite <- list_fmap_compose.
  rewrite (list_fmap_ext _ (Repo.patched (patch e b))) by (intros; apply patched_again).
  simpl in H. rewrite <- H. by destruct sf as [[] ?].
Qed.

(** ** Updating twice *)

Lemma reconcile_touches (k : assoc) (e : ProductInterface) (p : Persisted) (s : state) (t : table) :
  t ≠ joinTable k →
  filter (touches t) (calls (ProductDBRepository.reconcile k e p s)) = [].
Proof.
  intros Ht. rewrite reconcile_run.
  destruct (ProductDBRepository.changed _ _); [|done].
  unfold calls. simpl. apply filter_none.
  intros c [->|(r & -> & _)%list_elem_of_fmap]%elem_of_cons; simpl;
    rewrite bool_decide_eq_false_2 by congruence; simpl; tauto.
Qed.

Lemma reconcile_same (k : assoc) (e : ProductInterface) (p : Persisted) (s : state) :
  persisted k p = wanted k (entity e) →
  ProductDBRepository.reconcile k e p s = (Ok tt, s, []).
Proof. intros H. by rewrite reconcile_run, H, changed_same. Qed.

Section Twice.

Variables (e : ProductInterface) (s : state).

Let first := ProductDBRepository.updateProduct e s.
Let second := ProductDBRepository.updateProduct e (final first).

(** What the first update leaves of the tables it does not reconcile. *)
Lemma updateProduct_frame (t : table) :
  t ≠ TProductCategory → t ≠ TProductSize →
  get t (tables (final first)) =
  match lookup_name (db_brand (tables s)) (brand (entity e)) with
  | [] => get t (tables s)
  | b :: _ => get t (tables (written e b s))
  end.
Proof.
  intros Hc Hs. subst first. rewrite updateProduct_run.
  destruct (lookup_name _ _) as [|b ?]; [done|].
  destruct (readBack e _) as [p|]; [|done].
  simpl. destruct (outcome _); unfold final at 1; simpl.
  - by rewrite !reconcile_frame.
  - by rewrite reconcile_frame.
Qed.

(** The second update starts by writing the same scalar row again, which
    changes nothing, and reads the product back from the state the first
    one left. *)
Lemma second_run (b : Row) (others : list Row) :
  lookup_name (db_brand (tables s)) (brand (entity e)) = b :: others →
  lookup_name (db_brand (tables (final first))) (brand (entity e)) = b :: others
  ∧ written e b (final first) = final first
  ∧ (is_Some (readBack e (written e b s)) ↔ is_Some (readBack e (final first)))
  ∧ ∀ p k, readBack e (final first) = Some p →
           persisted k p = ProductRepository.names k (entity_id e) (tables (final first)).
Proof.
  intros Hb.
  pose proof (updateProduct_frame TBrand) as Hbrand.
  pose proof (updateProduct_frame TProduct) as Hprod.
  rewrite Hb in Hbrand, Hprod. simpl in Hbrand, Hprod.
  specialize (Hbrand ltac:(done) ltac:(done)). specialize (Hprod ltac:(done) ltac:(done)).
  split; [by rewrite Hbrand|]. split; [by apply (written_again e b s)|].
  split.
  - unfold readBack. rewrite !fmap_is_Some. simpl. by rewrite Hprod.
  - unfold readBack. intros p k (r & _ & ->)%fmap_Some. by destruct k.
Qed.

End Twice.

Section Idempotent.

Variables (e : ProductInterface) (s : state).

Let first := ProductDBRepository.updateProduct e s.
Let second := ProductDBRepository.updateProduct e (final first).
Let productId := entity_id e.

(** An association that already reads back as wanted gets no write. *)
Lemma second_quiet (k : assoc) :
  ProductRepository.names k productId (tables (final first)) = wanted k (entity e) →
  filter (touches (joinTable k)) (calls second) = [].
Proof.
  intros Hk. subst second. rewrite updateProduct_run.
  destruct (lookup_name _ _) as [|b ?]; [done|].
  destruct (readBack e _) as [p2|] eqn:Hr2; [|by destruct k].
  assert (persisted k p2 = wanted k (entity e)) as Hp2.
  { rewrite <- Hk. unfold readBack in Hr2. apply fmap_Some in Hr2 as (r & _ & ->).
    by destruct k. }
  simpl. destruct k; simpl in *.
  - rewrite (reconcile_same Categories) by done. simpl.
    rewrite filter_cons_False by (simpl; tauto).
    by apply (reconcile_touches Sizes).
  - destruct (outcome _) eqn:Ho; unfold calls at 1; simpl.
    + rewrite (reconcile_same Sizes) by done. simpl.
      rewrite filter_cons_False, app_nil_r by (simpl; tauto).
      by apply (reconcile_touches Categories).
    + rewrite filter_cons_False by (simpl; tauto).
      by apply (reconcile_touches Categories).
Qed.

(** Where the first update stopped, and what it left, once the brand is
    found and the product is read back. *)
Lemma first_run (b : Row) (bs : list Row) (p1 : Persisted) :
  lookup_name (db_brand (tables s)) (brand (entity e)) = b :: bs →
  readBack e (written e b s) = Some p1 →
  let cats1 := ProductDBRepository.reconcile Categories e p1 (written e b s) in
  let szs1 := ProductDBRepository.reconcile Sizes e p1 (final cats1) in
  (∀ k, persisted k p1 = ProductRepository.names k productId (tables (written e b s)))
  ∧ persisted Sizes p1 = ProductRepository.names Sizes productId (tables (final cats1))
  ∧ (∀ t, t ≠ TProductCategory → get t (tables (final cats1)) = get t (tables (written e b s)))
  ∧ (∀ t, t ≠ TProductSize → get t (tables (final szs1)) = get t (tables (final cats1)))
  ∧ first =
    match outcome cats1 with
    | Throw err => (Throw err, final cats1, Update TProduct (patch e b) :: calls cats1)
    | Ok _ => (outcome szs1, final szs1, Update TProduct (patch e b) :: calls cats1 ++ calls szs1)
    end.
Proof.
  intros Hb Hr1 cats1 szs1.
  assert (∀ k, persisted k p1 = ProductRepository.names k productId (tables (written e b s)))
    as Hp1.
  { unfold readBack in Hr1. apply fmap_Some in Hr1 as (r & _ & ->). by intros []. }
  assert (∀ t, t ≠ TProductCategory → get t (tables (final cats1)) = get t (tables (written e b s)))
    as Hframe1 by (intros; by apply reconcile_frame).
  split; [done|]. split.
  { rewrite Hp1. apply names_ext; by rewrite Hframe1. }
  split; [done|]. split; [intros; by apply reconcile_frame|].
  subst first. by rewrite updateProduct_run, Hb, Hr1.
Qed.

Lemma second_same : final second = final first ∧ outcome second = outcome first.
Proof.
  destruct (lookup_name (db_brand (tables s)) (brand (entity e))) as [|b bs] eqn:Hb.
  { subst second first. rewrite (updateProduct_run e s), Hb.
    unfold final at 2 4. simpl. by rewrite updateProduct_run, Hb. }
  pose proof (second_run e s b bs Hb) as (Hb2 & Hw2 & Hsome & Hp2). fold first in Hb2, Hw2, Hsome, Hp2.
  pose proof (updateProduct_run e (final first)) as Hsecond. fold second in Hsecond.
  rewrite Hb2, Hw2 in Hsecond.
  destruct (readBack e (written e b s)) as [p1|] eqn:Hr1.
  2: { pose proof (updateProduct_run e s) as Hfirst. fold first in Hfirst.
       rewrite Hb, Hr1 in Hfirst.
       destruct (readBack e (final first)) as [p2|] eqn:Hr2.
       - destruct Hsome as [_ Hsome]. by destruct Hsome.
       - rewrite Hfirst in Hsecond |- *. by rewrite Hsecond. }
  destruct (readBack e (final first)) as [p2|] eqn:Hr2.
  2: { destruct Hsome as [Hsome _]. by destruct Hsome. }
  destruct (first_run b bs p1 Hb Hr1) as (Hp1 & Hp1' & Hframe1 & Hframe2 & Hfirst).
  specialize (Hp2 p2). simpl in Hfirst, Hsecond.
  set (cats1 := ProductDBRepository.reconcile Categories e p1 (written e b s)) in *.
  set (szs1 := ProductDBRepository.reconcile Sizes e p1 (final cats1)) in *.
  destruct (outcome cats1) as [[]|err] eqn:Ho1.
  - (* the categories went through *)
    assert (final first = final szs1) as Hf by (by rewrite Hfirst).
    assert (outcome first = outcome szs1) as Ho by (by rewrite Hfirst).
    rewrite Hf in Hsecond, Hp2.
    assert (get (joinTable Categories) (tables (final szs1))
            = get (joinTable Categories) (tables (final cats1))) as Hj1
      by (by rewrite Hframe2).
    assert (get (refTable Categories) (tables (final szs1))
            = get (refTable Categories) (tables (written e b s))) as Hr1'
      by (by rewrite Hframe2, Hframe1).
    destruct (reconcile_again Categories e p1 p2 (written e b s) (final szs1)
                (Hp1 _) Hj1 Hr1' (Hp2 _ eq_refl)) as (Hc1 & Hc2).
    fold cats1 in Hc2. rewrite Ho1 in Hc2. rewrite Hc2, Hc1 in Hsecond.
    assert (get (refTable Sizes) (tables (final szs1))
            = get (refTable Sizes) (tables (final cats1))) as Hr2'
      by (by rewrite Hframe2).
    destruct (reconcile_again Sizes e p1 p2 (final cats1) (final szs1)
                Hp1' eq_refl Hr2' (Hp2 _ eq_refl)) as (Hs1 & Hs2).
    fold szs1 in Hs2.
    by rewrite Hf, Ho, Hsecond.
  - (* a category name had no row *)
    assert (final first = final cats1) as Hf by (by rewrite Hfirst).
    assert (outcome first = Throw err) as Ho by (by rewrite Hfirst).
    rewrite Hf in Hsecond, Hp2.
    assert (get (refTable Categories) (tables (final cats1))
            = get (refTable Categories) (tables (written e b s))) as Hr1'
      by (by rewrite Hframe1).
    destruct (reconcile_again Categories e p1 p2 (written e b s) (final cats1)
                (Hp1 _) eq_refl Hr1' (Hp2 _ eq_refl)) as (Hc1 & Hc2).
    fold cats1 in Hc2. rewrite Ho1 in Hc2. rewrite Hc2, Hc1 in Hsecond.
    by rewrite Hf, Ho, Hsecond.
Qed.

(** After an update that returned, both associations read back as wanted,
    when the category and size rows are identified by their ids. *)
Lemma first_ok_names :
  identified (db_category (tables s)) →
  identified (db_size (tables s)) →
  outcome first = Ok tt →
  ∀ k, ProductRepository.names k productId (tables (final first)) = wanted k (entity e).
Proof.
  intros Hcat Hsize.
  destruct (lookup_name (db_brand (tables s)) (brand (entity e))) as [|b bs] eqn:Hb.
  { subst first. by rewrite updateProduct_run, Hb. }
  destruct (readBack e (written e b s)) as [p1|] eqn:Hr1.
  2: { subst first. by rewrite updateProduct_run, Hb, Hr1. }
  destruct (first_run b bs p1 Hb Hr1) as (Hp1 & Hp1' & Hframe1 & Hframe2 & Hfirst).
  simpl in Hfirst.
  set (cats1 := ProductDBRepository.reconcile Categories e p1 (written e b s)) in *.
  set (szs1 := ProductDBRepository.reconcile Sizes e p1 (final cats1)) in *.
  rewrite Hfirst. destruct (outcome cats1) as [[]|err] eqn:Ho1; [|done].
  unfold outcome at 1, final at 1. simpl. intros Hok [|].
  - rewrite (names_ext Categories productId _ (tables (final cats1)))
      by (by rewrite Hframe2).
    by apply reconcile_ok_names; [apply Hp1| |].
  - apply reconcile_ok_names; [done| |done]. by rewrite Hframe1.
Qed.

(** C2. Reconciliation is idempotent.  Updating a product a second time
    with the same payload leaves every table exactly as the first update
    left it, and ends the same way.  The second update issues no write at
    all to the join table of an association whose persisted names already
    equal the wanted ones, position by position.  After a first update that
    returned, that is the case of both join tables, provided the category
    and size rows are identified by their ids. *)
Theorem updateProduct_idempotent :
  final second = final first
  ∧ outcome second = outcome first
  ∧ (∀ k, ProductRepository.names k productId (tables (final first)) = wanted k (entity e) →
          filter (touches (joinTable k)) (calls second) = [])
  ∧ (identified (db_category (tables s)) →
     identified (db_size (tables s)) →
     outcome first = Ok tt →
     ∀ k, filter (touches (joinTable k)) (calls second) = []).
Proof.
  destruct second_same as (Hf & Ho).
  split; [done|]. split; [done|]. split; [apply second_quiet|].
  intros Hcat Hsize Hok k. by apply second_quiet, first_ok_names.
Qed.

End Idempotent.

(** ** The product's store *)

Section StoreIsolation.

Variables (e : ProductInterface) (s : state).

Let run := ProductDBRepository.updateProduct e s.

(** The payload as [updateProduct] sees it once [categories], [sizes] and
    [brand] are taken out. *)
Let payload : Row := <["id" := VNum (entity_id e)]> (rest (entity e)).

Lemma patch_storeId (b : Row) : patch e b !! "storeId" = None.
Proof.
  unfold patch. apply lookup_union_None. split; [apply lookup_delete_eq|].
  unfold with_prop. destruct (b !! "id"); [by rewrite lookup_insert_ne|by rewrite lookup_delete_ne].
Qed.

Lemma patch_applies (b : Row) (key : string) (v : value) :
  key ≠ "storeId" → payload !! key = Some v → patch e b !! key = Some v.
Proof.
  intros Hkey Hv. unfold patch. apply lookup_union_Some_l. by rewrite lookup_delete_ne.
Qed.

Lemma patched_storeId (b r : Row) :
  Repo.patched (patch e b) r !! "storeId" = r !! "storeId".
Proof.
  unfold Repo.patched. case_decide; [|done].
  by rewrite lookup_union_r by apply patch_storeId.
Qed.

(** No product row changes store, however the update ends. *)
Lemma updateProduct_store_column :
  (.!! "storeId") <$> db_product (tables (final run))
  = (.!! "storeId") <$> db_product (tables s).
Proof.
  pose proof (updateProduct_frame e s TProduct ltac:(done) ltac:(done)) as H.
  simpl in H. subst run. rewrite H.
  destruct (lookup_name _ _) as [|b ?]; [done|]. simpl.
  rewrite <- list_fmap_compose. apply list_fmap_ext. intros _ r _. apply patched_storeId.
Qed.

(** C5. An update never moves a product to another store.  Whatever
    [storeId] the payload carries is taken out of the patch before the row is
    written, without any error being raised for it: the update runs exactly
    as it does for the same payload without [storeId].  The store of every
    product row is what it was, and once the brand is found the product's
    row takes every other scalar property of the payload. *)
Theorem updateProduct_keeps_store (b : Row) (bs : list Row) (i : nat) (r : Row) :
  lookup_name (db_brand (tables s)) (brand (entity e)) = b :: bs →
  db_product (tables s) !! i = Some r →
  r !! "id" = Some (VNum (entity_id e)) →
  (∃ r', db_product (tables (final run)) !! i = Some r'
         ∧ r' !! "storeId" = r !! "storeId"
         ∧ ∀ key v, key ≠ "storeId" → payload !! key = Some v → r' !! key = Some v)
  ∧ head (calls run) = Some (Update TProduct (patch e b))
  ∧ patch e b !! "storeId" = None
  ∧ (.!! "storeId") <$> db_product (tables (final run))
    = (.!! "storeId") <$> db_product (tables s)
  ∧ run =
    ProductDBRepository.updateProduct
      (mkEntity (entity_id e)
         (mkProduct (categories (entity e)) (sizes (entity e)) (brand (entity e))
            (base.delete "storeId" (rest (entity e))))) s.
Proof.
  intros Hb Hi Hid.
  pose proof (updateProduct_frame e s TProduct ltac:(done) ltac:(done)) as Hrows.
  rewrite Hb in Hrows. simpl in Hrows. fold run in Hrows.
  split; [|split; [|split; [apply patch_storeId|split; [apply updateProduct_store_column|]]]].
  - exists (Repo.patched (patch e b) r).
    split; [by rewrite Hrows, list_lookup_fmap, Hi|].
    split; [apply patched_storeId|].
    intros key v Hkey Hv. unfold Repo.patched. rewrite decide_True.
    + apply lookup_union_Some_l. by apply patch_applies.
    + assert (patch e b !! "id" = Some (VNum (entity_id e))) as ->; [|done].
      apply patch_applies; [done|]. apply lookup_insert_eq.
  - subst run. rewrite updateProduct_run, Hb.
    destruct (readBack e _); [|done]. simpl. by destruct (outcome _).
  - subst run. unfold ProductDBRepository.updateProduct. simpl.
    by rewrite !delete_insert_ne, delete_delete_eq by done.
Qed.

End StoreIsolation.

(** ** The colour rows of a store *)

Section ColorRows.

Lemma idOf_patched (P r : Row) : Repo.idOf (Repo.patched P r) = Repo.idOf r.
Proof.
  unfold Repo.patched. case_decide as H; [|done]. destruct H as [[i Hi] Hr].
  unfold Repo.idOf. by rewrite (lookup_union_Some_l _ _ _ i), Hr, Hi.
Qed.

Lemma nextId_fmap (f : Row → Row) (rows : list Row) :
  (∀ r, Repo.idOf (f r) = Repo.idOf r) → Repo.nextId (f <$> rows) = Repo.nextId rows.
Proof.
  intros Hf. unfold Repo.nextId. f_equal.
  induction rows as [|r rows IH]; [done|]. rewrite fmap_cons. cbn [foldr]. by rewrite Hf, IH.
Qed.

Lemma keeps_compose (f g : Row → Row) : keeps f → keeps g → keeps (f ∘ g).
Proof.
  intros Hf Hg r. simpl. destruct (Hf (g r)) as [-> ->]. apply Hg.
Qed.

(** The patch of a colour row carries hue, sat, light and the row's id. *)
Lemma keeps_color_patch (idColor : option value) (c : option Color) :
  keeps (Repo.patched (with_prop "id" idColor (spread c))).
Proof.
  intros r. unfold Repo.patched. case_decide; [|done].
  assert (∀ key, key ≠ "id" → key ≠ "hue" → key ≠ "sat" → key ≠ "light" →
                 with_prop "id" idColor (spread c) !! key = None) as Hnone.
  { intros key ? ? ? ?. unfold with_prop, spread.
    destruct idColor, c;
      by rewrite ?lookup_insert_ne, ?lookup_delete_ne, ?lookup_insert_ne,
           ?lookup_singleton_ne, ?lookup_empty by done. }
  by rewrite !lookup_union_r by (by apply Hnone).
Qed.

Lemma updateColor_effect (idStore : option value) (type : string) (c : option Color) (s : state) :
  let run := StoreController.updateColor idStore type c s in
  ∃ g, keeps g
       ∧ db_storeColor (tables (final run)) = g <$> db_storeColor (tables s)
       ∧ db_store (tables (final run)) = db_store (tables s).
Proof.
  unfold StoreController.updateColor. destruct c as [c|].
  - step. destruct (filter _ _) as [|r0 ?]; simpl.
    + exists (λ r, r). by rewrite list_fmap_id.
    + eexists. split; [apply (keeps_color_patch (r0 !! "id") (Some c))|done].
  - exists (λ r, r). by rewrite list_fmap_id.
Qed.

Lemma update_effect (idManager : Z) (st : Store) (s : state) :
  let run := StoreController.update idManager st s in
  ∃ f g, (∀ r, Repo.idOf (f r) = Repo.idOf r) ∧ keeps g
         ∧ db_store (tables (final run)) = f <$> db_store (tables s)
         ∧ db_storeColor (tables (final run)) = g <$> db_storeColor (tables s).
Proof.
  unfold StoreController.update. step.
  destruct (filter _ (db_store (tables s))) as [|st0 ?]; simpl.
  { exists (λ r, r), (λ r, r). by rewrite !list_fmap_id. }
  set (P := with_prop "id" (st0 !! "id") (scalars st)).
  set (s1 := mkState _ _).
  destruct (colors st) as [[p q]|]; simpl.
  2: { exists (Repo.patched P), (λ r, r). rewrite list_fmap_id.
       split; [apply idOf_patched|done]. }
  destruct (updateColor_effect (st0 !! "id") "PRIMARY" p s1) as (g1 & Hg1 & Hc1 & Hs1).
  revert Hc1 Hs1. unfold final.
  destruct (StoreController.updateColor _ "PRIMARY" p s1) as [[[[]|err] s2] c2]; simpl;
    intros Hc1 Hs1.
  2: { exists (Repo.patched P), g1. split; [apply idOf_patched|done]. }
  destruct (updateColor_effect (st0 !! "id") "SECONDARY" q s2) as (g2 & Hg2 & Hc2 & Hs2).
  revert Hc2 Hs2. unfold final.
  destruct (StoreController.updateColor _ "SECONDARY" q s2) as [[r3 s3] c3]; simpl;
    intros Hc2 Hs2.
  exists (Repo.patched P), (g2 ∘ g1).
  split; [apply idOf_patched|]. split; [by apply keeps_compose|].
  split; [congruence|]. by rewrite Hc2, Hc1, <- list_fmap_compose.
Qed.

Lemma colorsOf_fmap (g : Row → Row) (v : value) (rows : list Row) :
  keeps g →
  filter (Repo.Matches [("storeId", Some v)]) (g <$> rows)
  = g <$> filter (Repo.Matches [("storeId", Some v)]) rows.
Proof.
  intros Hg. induction rows as [|r rows IH]; [done|].
  assert (Repo.Matches [("storeId", Some v)] (g r) ↔ Repo.Matches [("storeId", Some v)] r) as Hiff.
  { unfold Repo.Matches. rewrite !Forall_singleton. simpl. by destruct (Hg r) as [-> _]. }
  rewrite fmap_cons, !filter_cons.
  destruct (decide (Repo.Matches _ r)) as [Hm|Hm].
  - rewrite decide_True by (by apply Hiff). by rewrite fmap_cons, IH.
  - rewrite decide_False by (by rewrite Hiff). done.
Qed.

Lemma paired_update (idManager : Z) (st : Store) (s : state) :
  paired (tables s) → paired (tables (serve (UpdateStore idManager st) s)).
Proof.
  intros [Hfk Hpair]. simpl.
  destruct (update_effect idManager st s) as (f & g & Hf & Hg & Hs & Hc).
  split.
  - rewrite Hs, Hc, nextId_fmap by done. apply Forall_fmap.
    eapply Forall_impl; [exact Hfk|]. simpl. intros r (i & Hi & ?).
    exists i. by destruct (Hg r) as [-> _].
  - intros v. unfold colorsOf. rewrite Hc, colorsOf_fmap by done.
    destruct (Hpair v) as [Hnil|(p & q & Hpq & Hp & Hq)]; unfold colorsOf in *.
    + left. by rewrite Hnil.
    + right. exists (g p), (g q). rewrite Hpq. split; [done|].
      unfold ofType. destruct (Hg p) as [_ ->]. by destruct (Hg q) as [_ ->].
Qed.

Lemma paired_create (st : Store) (s : state) :
  paired (tables s) → paired (tables (serve (CreateStore st) s)).
Proof.
  intros [Hfk Hpair]. simpl. unfold StoreController.createStore. step.
  set (n := Repo.nextId (db_store (tables s))).
  set (cs := match colors st with Some c => c | None => StoreController.defaultColors end).
  set (p := <["id" := _]> (<["type" := VStr "PRIMARY"]> _)).
  set (q := <["id" := _]> (<["type" := VStr "SECONDARY"]> _)).
  assert (p !! "storeId" = Some (VNum n) ∧ ofType "PRIMARY" p) as [Hps Hpt].
  { subst p. unfold ofType. split; by rewrite !lookup_insert_ne, lookup_insert_eq by done. }
  assert (q !! "storeId" = Some (VNum n) ∧ ofType "SECONDARY" q) as [Hqs Hqt].
  { subst q. unfold ofType. split; by rewrite !lookup_insert_ne, lookup_insert_eq by done. }
  rewrite <- app_assoc. unfold paired. simpl. split.
  - rewrite nextId_snoc, idOf_insert. fold n. apply Forall_app. split.
    + eapply Forall_impl; [exact Hfk|]. simpl. intros r (i & Hi & ?). exists i. split; [done|lia].
    + repeat constructor; exists n; (split; [done|lia]).
  - intros v. unfold colorsOf. simpl. rewrite filter_app.
    destruct (decide (v = VNum n)) as [->|Hv].
    + right. exists p, q. split; [|done].
      replace (filter _ (db_storeColor (tables s))) with (@nil Row).
      * simpl. rewrite !filter_cons_True; [done|..];
          unfold Repo.Matches; by rewrite Forall_singleton.
      * symmetry. apply filter_none. intros r Hr [[_ Hm] _]%Forall_cons. simpl in Hm.
        rewrite Forall_forall in Hfk. destruct (Hfk r Hr) as (i & Hi & Hlt).
        rewrite Hi in Hm. injection Hm as ->. subst n. lia.
    + replace (filter _ [p; q]) with (@nil Row).
      * rewrite app_nil_r. apply Hpair.
      * symmetry. apply filter_none.
        intros r Hr [[_ Hm] _]%Forall_cons. simpl in Hm.
        apply elem_of_cons in Hr as [->|Hr]; [congruence|].
        apply list_elem_of_singleton in Hr as ->. congruence.
Qed.

Lemma paired_serve_all (rqs : list request) (s : state) :
  paired (tables s) → paired (tables (serve_all rqs s)).
Proof.
  revert s. induction rqs as [|rq rqs IH]; intros s Hs; [done|].
  simpl. apply IH. destruct rq; [by apply paired_create|by apply paired_update].
Qed.

Lemma paired_empty : paired emptyDb.
Proof. split; [constructor|]. intros v. by left. Qed.

(** What a creation does to the colour table: it appends the PRIMARY row
    and then the SECONDARY row of the new store, through two inserts. *)
Lemma createStore_rows (st : Store) (s : state) :
  let run := StoreController.createStore st s in
  let insertId := Repo.nextId (db_store (tables s)) in
  ∃ p q,
    db_storeColor (tables (final run)) = db_storeColor (tables s) ++ [p; q]
    ∧ filter (touches TStoreColor) (calls run) = [Insert TStoreColor p; Insert TStoreColor q]
    ∧ p !! "storeId" = Some (VNum insertId) ∧ ofType "PRIMARY" p
    ∧ q !! "storeId" = Some (VNum insertId) ∧ ofType "SECONDARY" q.
Proof.
  unfold StoreController.createStore. step. rewrite <- app_assoc.
  eexists _, _. split; [done|]. split; [done|]. unfold ofType.
  repeat split; by rewrite !lookup_insert_ne, lookup_insert_eq by done.
Qed.

Lemma patched_id (P r : Row) : Repo.patched P r !! "id" = r !! "id".
Proof.
  unfold Repo.patched. case_decide as H; [|done]. destruct H as [[i Hi] Hr].
  by rewrite (lookup_union_Some_l _ _ _ i), Hr, Hi.
Qed.

Lemma in_place_id : in_place (λ r, r).
Proof. done. Qed.

Lemma in_place_compose (f g : Row → Row) : in_place f → in_place g → in_place (f ∘ g).
Proof.
  intros Hf Hg r. simpl. destruct (Hf (g r)) as (-> & -> & ->). apply Hg.
Qed.

Lemma in_place_color_patch (idColor : option value) (c : option Color) :
  in_place (Repo.patched (with_prop "id" idColor (spread c))).
Proof.
  intros r. split; [apply patched_id|]. apply keeps_color_patch.
Qed.

(** One colour block of [update] writes nothing but an update, and that
    in place. *)
Lemma updateColor_in_place
    (idStore : option value) (type : string) (c : option Color) (s : state) :
  let run := StoreController.updateColor idStore type c s in
  ∃ g, in_place g
       ∧ db_storeColor (tables (final run)) = g <$> db_storeColor (tables s)
       ∧ Forall (λ c, ∃ patch, c = Update TStoreColor patch)
                (filter (touches TStoreColor) (calls run)).
Proof.
  unfold StoreController.updateColor. destruct c as [c|].
  - step. destruct (filter _ _) as [|r0 ?]; simpl.
    + exists (λ r, r). by rewrite list_fmap_id.
    + eexists. split; [apply (in_place_color_patch (r0 !! "id") (Some c))|].
      split; [done|]. repeat constructor. by eexists.
  - exists (λ r, r). rewrite list_fmap_id. split; [done|]. split; [done|]. constructor.
Qed.

(** What an update does to the colour table, on every path: it maps the
    rows in place, and every call it issues on that table is an update. *)
Lemma update_in_place (idManager : Z) (st : Store) (s : state) :
  let run := StoreController.update idManager st s in
  ∃ g, in_place g
       ∧ db_storeColor (tables (final run)) = g <$> db_storeColor (tables s)
       ∧ Forall (λ c, ∃ patch, c = Update TStoreColor patch)
                (filter (touches TStoreColor) (calls run)).
Proof.
  unfold StoreController.update. step.
  destruct (filter _ (db_store (tables s))) as [|st0 ?]; simpl.
  { exists (λ r, r). rewrite list_fmap_id. split; [done|]. split; [done|]. constructor. }
  set (P := with_prop "id" (st0 !! "id") (scalars st)).
  set (s1 := mkState _ _).
  destruct (colors st) as [[p q]|]; simpl.
  2: { exists (λ r, r). rewrite list_fmap_id. split; [done|]. split; [done|]. constructor. }
  destruct (updateColor_in_place (st0 !! "id") "PRIMARY" p s1) as (g1 & Hg1 & Hc1 & Hu1).
  revert Hc1 Hu1. unfold final, calls.
  destruct (StoreController.updateColor _ "PRIMARY" p s1) as [[[[]|err] s2] c2]; simpl;
    intros Hc1 Hu1.
  2: { exists g1. done. }
  destruct (updateColor_in_place (st0 !! "id") "SECONDARY" q s2) as (g2 & Hg2 & Hc2 & Hu2).
  revert Hc2 Hu2. unfold final, calls.
  destruct (StoreController.updateColor _ "SECONDARY" q s2) as [[r3 s3] c3]; simpl;
    intros Hc2 Hu2.
  exists (g2 ∘ g1). split; [by apply in_place_compose|].
  split; [by rewrite Hc2, Hc1, <- list_fmap_compose|].
  rewrite filter_cons_False, filter_app by (by intros ?). by apply Forall_app.
Qed.

End ColorRows.

(** C7. Starting from the empty database, after any sequence of store
    creations and store updates the colour rows that reference any one store
    are 0 or 2 in number, with at most one PRIMARY and at most one
    SECONDARY row among them.  This because, in whatever state it runs, a
    creation always inserts both rows, appending to the colour table the
    PRIMARY and then the SECONDARY row of the new store's id, and an update,
    whether it returns or throws, only modifies the existing rows in place:
    the colour table keeps its rows in number and in position, each with its
    id, its store and its type, and the only calls issued on it are
    updates. *)
Theorem store_colors_invariant :
  (∀ (rqs : list request) (v : value),
     let rows := colorsOf v (tables (serve_all rqs (mkState emptyDb None))) in
     (length rows = 0 ∨ length rows = 2)%nat
     ∧ (length (filter (ofType "PRIMARY") rows) ≤ 1)%nat
     ∧ (length (filter (ofType "SECONDARY") rows) ≤ 1)%nat)
  ∧ (∀ (st : Store) (s : state),
       let run := StoreController.createStore st s in
       let insertId := Repo.nextId (db_store (tables s)) in
       ∃ p q,
         db_storeColor (tables (final run)) = db_storeColor (tables s) ++ [p; q]
         ∧ filter (touches TStoreColor) (calls run)
           = [Insert TStoreColor p; Insert TStoreColor q]
         ∧ p !! "storeId" = Some (VNum insertId) ∧ ofType "PRIMARY" p
         ∧ q !! "storeId" = Some (VNum insertId) ∧ ofType "SECONDARY" q)
  ∧ (∀ (idManager : Z) (st : Store) (s : state),
       let run := StoreController.update idManager st s in
       ∃ g, in_place g
            ∧ db_storeColor (tables (final run)) = g <$> db_storeColor (tables s)
            ∧ Forall (λ c, ∃ patch, c = Update TStoreColor patch)
                     (filter (touches TStoreColor) (calls run))).
Proof.
  split; [|split; [exact createStore_rows|exact update_in_place]].
  intros rqs v.
  destruct (paired_serve_all rqs (mkState emptyDb None) paired_empty) as [_ H].
  simpl. destruct (H v) as [->|(p & q & -> & Hp & Hq)]; [by auto|].
  split; [by right|]. unfold ofType in *.
  rewrite !filter_cons, !filter_nil.
  rewrite (decide_True _ _ Hp), (decide_True _ _ Hq).
  rewrite !decide_False by congruence. simpl. lia.
Qed.

(** ** Missing references on creation *)

Section InsertProduct.

Variables (product : Product) (id : value) (s : state).

Let run := ProductDBRepository.insertProduct product id s.

(** C9 (what the code does for the brand). When no brand row has the
    product's brand name, the guard [if (!brandName)] does not fire, since
    the lookup returns an array, and the creation fails on the unguarded
    [brandName[0].id] with the runtime's [TypeError] instead of the explicit
    "No brand with that name".  Nothing is written. *)
Theorem insertProduct_missing_brand :
  lookup_name (db_brand (tables s)) (brand product) = [] →
  run = (Throw (TypeError "id"), s, [])
  ∧ run ≠ (Throw (Error "No brand with that name"), s, []).
Proof.
  subst run. unfold lookup_name, ProductDBRepository.insertProduct. step.
  by intros ->.
Qed.

(** X6. With the brand found, the product row is inserted, carrying the
    store id given and the brand's id, then the join rows of the
    categories, then those of the sizes, each for the new product's id; a
    category or size name without a row stops the creation there with the
    explicit error of its kind, the rows inserted before it staying.  No
    table other than the product table and the two join tables is
    written. *)
Lemma insertProduct_run (b : Row) (bs : list Row) :
  lookup_name (db_brand (tables s)) (brand product) = b :: bs →
  let insertId := Repo.nextId (db_product (tables s)) in
  let stored := <["id" := VNum insertId]> (with_prop "brandId" (b !! "id") (<["storeId" := id]> (rest product))) in
  let cats := resolve (db_category (tables s)) (categories product) in
  let szs := resolve (db_size (tables s)) (sizes product) in
  outcome run =
    (if cats.2 then if szs.2 then Ok insertId else Throw (Error "Invalid size")
     else Throw (Error "Invalid category"))
  ∧ calls run =
      Insert TProduct stored
        :: (Insert TProductCategory ∘ joinRow Categories insertId <$> cats.1)
        ++ (if cats.2 then Insert TProductSize ∘ joinRow Sizes insertId <$> szs.1 else [])
  ∧ ∀ t, t ≠ TProduct → t ≠ TProductCategory → t ≠ TProductSize →
         get t (tables (final run)) = get t (tables s).
Proof.
  intros Hb. subst run. unfold lookup_name in Hb.
  change (db_brand (tables s)) with (get TBrand (tables s)) in Hb.
  pose proof (nextId_pos (db_product (tables s))) as Hpos.
  assert (truthy (Some (VNum (Repo.nextId (db_product (tables s))))) = true) as Htruthy.
  { unfold truthy. apply negb_true_iff, Z.eqb_neq. lia. }
  unfold ProductDBRepository.insertProduct, outcome, final, calls.
  unfold mbind, M_bind, mret, M_ret, throw, Repo.find, Repo.insertOne. simpl.
  change (db_brand (tables s)) with (get TBrand (tables s)). rewrite Hb. simpl.
  rewrite Htruthy. simpl. rewrite (loop_run Categories). simpl.
  destruct (resolve (db_category (tables s)) (categories product)) as [crows call]. simpl.
  destruct call; simpl.
  - rewrite (loop_run Sizes). simpl.
    destruct (resolve (db_size (tables s)) (sizes product)) as [srows sall]. simpl.
    destruct sall; simpl; rewrite ?app_nil_r.
    all: split; [done|]; split; [done|]; intros t; by destruct t.
  - rewrite app_nil_r. split; [done|]. split; [done|]. intros t; by destruct t.
Qed.

End InsertProduct.

(** * Scenarios *)

Section Scenarios.

Import Shop.

(** Creating [air] inserts the product row, two category joins and one size
    join, all for product 1, inside one scope that is committed. *)
Example create_air :
  let run := ProductController.post 3 [air] s0 in
  calls run =
    [ Begin;
      Insert TProduct
        {[ "id" := VNum 1; "brandId" := VNum 1; "storeId" := VNum 7;
           "name" := VStr "Air"; "price" := VNum 90 ]};
      Insert TProductCategory {[ "productId" := VNum 1; "categoryId" := VNum 1 ]};
      Insert TProductCategory {[ "productId" := VNum 1; "categoryId" := VNum 2 ]};
      Insert TProductSize {[ "productId" := VNum 1; "sizeId" := VNum 1 ]};
      Commit ]
  ∧ ProductRepository.names Categories 1 (tables (final run)) = ["Shoes"; "Sale"]
  ∧ ProductRepository.names Sizes 1 (tables (final run)) = ["M"].
Proof. vm_compute. done. Qed.

(** Updating with the same categories writes nothing to the join table. *)
Example update_unchanged :
  calls (ProductDBRepository.updateProduct unchanged s1) =
    [ Update TProduct
        {[ "id" := VNum 1; "brandId" := VNum 1; "name" := VStr "Air"; "price" := VNum 90 ]} ].
Proof. vm_compute. done. Qed.

(** Shrinking the categories deletes the product's joins and inserts one. *)
Example update_shrunk :
  filter (touches TProductCategory) (calls (ProductDBRepository.updateProduct shrunk s1)) =
    [ Delete TProductCategory [("productId", Some (VNum 1))];
      Insert TProductCategory {[ "productId" := VNum 1; "categoryId" := VNum 1 ]} ].
Proof. vm_compute. done. Qed.

(** A product whose second category does not exist: the product row and the
    first join are inserted, then everything is rolled back. *)
Example create_bad_category :
  let run := ProductController.post 3 [bad_category] s0 in
  outcome run = Throw (Error "Error: Invalid category")
  ∧ calls run =
      [ Begin;
        Insert TProduct
          {[ "id" := VNum 1; "brandId" := VNum 1; "storeId" := VNum 7; "name" := VStr "Air" ]};
        Insert TProductCategory {[ "productId" := VNum 1; "categoryId" := VNum 1 ]};
        Rollback;
        Commit ]
  ∧ final run = s0.
Proof. vm_compute. done. Qed.

(** C4 (counterexample). The failing creation above does not close its
    scope exactly once: it issues a rollback and then a commit. *)
Lemma post_closes_twice :
  ¬ closed_once (calls (ProductController.post 3 [bad_category] s0)).
Proof. unfold closed_once. vm_compute. intros [H|H]; discriminate H. Qed.


Lemma updateProduct_idempotent_witness :
  let first := ProductDBRepository.updateProduct shrunk s1 in
  let second := ProductDBRepository.updateProduct shrunk (final first) in
  final second = final first
  ∧ outcome second = outcome first
  ∧ (∀ k, ProductRepository.names k 1 (tables (final first)) = wanted k (entity shrunk) →
          filter (touches (joinTable k)) (calls second) = [])
  ∧ (identified (db_category (tables s1)) →
     identified (db_size (tables s1)) →
     outcome first = Ok tt →
     ∀ k, filter (touches (joinTable k)) (calls second) = []).
Proof. exact (updateProduct_idempotent shrunk s1). Defined.

(** Shrinking the categories twice: the first update rewrites the joins,
    the second only writes the scalar row again. *)
Example shrunk_twice :
  let first := ProductDBRepository.updateProduct shrunk s1 in
  let second := ProductDBRepository.updateProduct shrunk (final first) in
  identified (db_category (tables s1)) ∧ identified (db_size (tables s1))
  ∧ outcome first = Ok tt
  ∧ length (calls first) = 3%nat ∧ length (calls second) = 1%nat.
Proof.
  split; [apply (@bool_decide_unpack _ (identified_dec _)); vm_compute; exact I|].
  split; [apply (@bool_decide_unpack _ (identified_dec _)); vm_compute; exact I|].
  vm_compute. done.
Qed.

Lemma post_atomic_witness :
  let run := ProductController.post 3 [bad_category] s0 in
  outcome run = Throw (Error "Error: Invalid category")
  ∧ tables (final run) = tables s0
  ∧ (Begin ∈ calls run → Rollback ∈ calls run ∧ scope (final run) = None).
Proof.
  assert (outcome (ProductController.post 3 [bad_category] s0)
          = Throw (Error "Error: Invalid category")) as H
    by (vm_compute; reflexivity).
  split; [exact H|].
  exact (post_atomic s0 3 [bad_category] (Error "Error: Invalid category") H).
Defined.

Lemma updateProduct_keeps_store_witness :
  let run := ProductDBRepository.updateProduct moved s1 in
  lookup_name (db_brand (tables s1)) "Nike" = [named 1 "Nike"]
  ∧ db_product (tables s1) !! 0%nat = Some air_row
  ∧ air_row !! "id" = Some (VNum 1)
  ∧ (∃ r', db_product (tables (final run)) !! 0%nat = Some r'
           ∧ r' !! "storeId" = air_row !! "storeId"
           ∧ ∀ key v, key ≠ "storeId" →
                      <["id" := VNum 1]> (rest (entity moved)) !! key = Some v →
                      r' !! key = Some v)
  ∧ head (calls run) = Some (Update TProduct (patch moved (named 1 "Nike")))
  ∧ patch moved (named 1 "Nike") !! "storeId" = None
  ∧ (.!! "storeId") <$> db_product (tables (final run))
    = (.!! "storeId") <$> db_product (tables s1)
  ∧ run =
    ProductDBRepository.updateProduct
      (mkEntity 1 (mkProduct ["Shoes"; "Sale"] ["M"] "Nike"
                     (base.delete "storeId" (rest (entity moved))))) s1.
Proof.
  assert (lookup_name (db_brand (tables s1)) "Nike" = [named 1 "Nike"]) as Hb
    by (vm_compute; reflexivity).
  assert (db_product (tables s1) !! 0%nat = Some air_row) as Hr
    by (vm_compute; reflexivity).
  assert (air_row !! "id" = Some (VNum 1)) as Hid by (vm_compute; reflexivity).
  split; [exact Hb|]. split; [exact Hr|]. split; [exact Hid|].
  exact (updateProduct_keeps_store moved s1 (named 1 "Nike") [] 0%nat air_row Hb Hr Hid).
Defined.

Lemma update_missing_color_row_witness :
  let c := mkColor 200 50 50 in
  let run :=
    StoreController.update 3 (mkStore renamed (Some (mkColors (Some c) None)) None) s0 in
  filter (Repo.Matches [("managerId", Some (VNum 3))]) (db_store (tables s0)) = [corner]
  ∧ filter (Repo.Matches [("storeId", corner !! "id"); ("type", Some (VStr "PRIMARY"))])
      (db_storeColor (tables s0)) = []
  ∧ outcome run = Throw (TypeError "id")
  ∧ (∀ msg, outcome run ≠ Throw (Error msg))
  ∧ calls run = [Update TStore (with_prop "id" (corner !! "id") renamed)]
  ∧ final run =
      mkState (set TStore (Repo.patched (with_prop "id" (corner !! "id") renamed)
                             <$> db_store (tables s0)) (tables s0))
              (scope s0)
  ∧ db_storeColor (tables (final run)) = db_storeColor (tables s0).
Proof.
  assert (filter (Repo.Matches [("managerId", Some (VNum 3))]) (db_store (tables s0)) = [corner])
    as Hm by (vm_compute; reflexivity).
  assert (filter (Repo.Matches [("storeId", corner !! "id"); ("type", Some (VStr "PRIMARY"))])
            (db_storeColor (tables s0)) = []) as Hn by reflexivity.
  split; [exact Hm|]. split; [exact Hn|].
  exact (update_missing_color_row s0 3 renamed None corner [] (mkColor 200 50 50)
           (Some (mkColor 200 50 50)) None "PRIMARY" Hm
           (or_introl (conj eq_refl eq_refl)) Hn).
Defined.

Lemma insertProduct_missing_brand_witness :
  let run := ProductDBRepository.insertProduct bad_brand (VNum 7) s0 in
  lookup_name (db_brand (tables s0)) "Acme" = []
  ∧ run = (Throw (TypeError "id"), s0, [])
  ∧ run ≠ (Throw (Error "No brand with that name"), s0, []).
Proof.
  assert (lookup_name (db_brand (tables s0)) "Acme" = []) as H by (vm_compute; reflexivity).
  split; [exact H|].
  exact (insertProduct_missing_brand bad_brand (VNum 7) s0 H).
Defined.

Lemma update_without_colors_witness :
  let run := StoreController.update 3 (mkStore renamed None None) s0 in
  filter (Repo.Matches [("managerId", Some (VNum 3))]) (db_store (tables s0)) = [corner]
  ∧ outcome run = Throw (TypeError "primary")
  ∧ calls run = [Update TStore (with_prop "id" (corner !! "id") renamed)]
  ∧ final run =
      mkState (set TStore (Repo.patched (with_prop "id" (corner !! "id") renamed)
                             <$> db_store (tables s0)) (tables s0))
              (scope s0)
  ∧ db_storeColor (tables (final run)) = db_storeColor (tables s0).
Proof.
  assert (filter (Repo.Matches [("managerId", Some (VNum 3))]) (db_store (tables s0)) = [corner])
    as Hm by (vm_compute; reflexivity).
  split; [exact Hm|].
  exact (update_without_colors s0 3 renamed None corner [] Hm).
Defined.

(** After that failed update the store carries its new name, and still has
    no colour rows. *)
Example renamed_store_persists :
  let run := StoreController.update 3 (mkStore renamed None None) s0 in
  db_store (tables (final run))
  = [ {[ "id" := VNum 7; "name" := VStr "Corner Shop"; "managerId" := VNum 3 ]} ]
  ∧ scope (final run) = None
  ∧ filter is_uow (calls run) = [].
Proof. vm_compute. done. Qed.

(** Two stores created without colours: each has its two default rows. *)
Example two_stores :
  let d := tables (serve_all [CreateStore (mkStore renamed None None);
                              CreateStore (mkStore renamed None None)]
                     (mkState emptyDb None)) in
  length (colorsOf (VNum 1) d) = 2%nat ∧ length (colorsOf (VNum 2) d) = 2%nat
  ∧ length (colorsOf (VNum 3) d) = 0%nat.
Proof. vm_compute. done. Qed.

End Scenarios.

(** * Further properties of the product writer *)

(** ** What the change test compares *)

Lemma some_differs_true (index : nat) (wanted persisted : list string) :
  ProductDBRepository.some_differs index wanted persisted = true
  ↔ ∃ i val, wanted !! i = Some val ∧ persisted !! (index + i)%nat ≠ Some val.
Proof.
  revert index. induction wanted as [|val wanted IH]; intros index; simpl.
  - split; [done|]. intros (i & v & Hi & _). by rewrite lookup_nil in Hi.
  - rewrite orb_true_iff, negb_true_iff, bool_decide_eq_false, IH. split.
    + intros [H0|(i & v & Hi & Hne)].
      * exists 0%nat, val. by rewrite Nat.add_0_r.
      * exists (S i), v. by rewrite <- Nat.add_succ_comm.
    + intros ([|i] & v & Hi & Hne); simpl in Hi.
      * left. injection Hi as <-. by rewrite Nat.add_0_r in Hne.
      * right. exists i, v. by rewrite Nat.add_succ_comm.
Qed.

(** X12. The test that guards each rewrite,
    [a.length !== b.length || a.some((val, index) => val !== b[index])],
    holds exactly when the wanted list and the persisted list differ in
    length or some wanted name is not the persisted name at its position:
    the comparison is by position, so a reordering or a repeated name counts
    as a change. *)
Theorem changed_positionwise (wanted persisted : list string) :
  ProductDBRepository.changed wanted persisted = true
  ↔ length wanted ≠ length persisted
    ∨ ∃ i val, wanted !! i = Some val ∧ persisted !! i ≠ Some val.
Proof.
  unfold ProductDBRepository.changed.
  rewrite orb_true_iff, negb_true_iff, Nat.eqb_neq, some_differs_true. done.
Qed.

(** ** The empty list of names *)


(** ** Failures of the update *)

(** X11. Nothing guards the brand lookup of an update: when no brand row
    has the payload's brand name, [updateProduct] fails on
    [brandName[0].id] before it writes anything, and the caller of the
    action receives a plain [Error] that carries the text of that
    [TypeError], after a rollback and a commit that had nothing to act on. *)
Theorem updateProduct_missing_brand (e : ProductInterface) (s : state) :
  lookup_name (db_brand (tables s)) (brand (entity e)) = [] →
  ProductDBRepository.updateProduct e s = (Throw (TypeError "id"), s, [])
  ∧ ProductController.update e s =
      (Throw (Error (toString (TypeError "id"))), mkState (tables s) None,
       [Begin; Rollback; Commit]).
Proof.
  intros Hb. split; [by rewrite updateProduct_run, Hb|].
  unfold ProductController.update, try_catch.
  unfold mbind at 1, M_bind at 1, UnitOfWork.beginTransaction. simpl.
  unfold mbind at 1, M_bind at 1.
  rewrite updateProduct_run. simpl. by rewrite Hb.
Qed.

(** X10. The product's existence is checked only after the row write: for
    an id that no product row carries, [updateProduct] (its brand found)
    issues the update, which matches no row and leaves every table as it
    was, and then throws "Product not found"; no join row is touched. *)
Theorem updateProduct_unknown_product
    (e : ProductInterface) (s : state) (b : Row) (bs : list Row) :
  lookup_name (db_brand (tables s)) (brand (entity e)) = b :: bs →
  filter (Repo.Matches [("id", Some (VNum (entity_id e)))]) (db_product (tables s)) = [] →
  ProductDBRepository.updateProduct e s =
    (Throw (Error "Product not found"), s, [Update TProduct (patch e b)]).
Proof.
  intros Hb Hnone.
  assert (Repo.patched (patch e b) <$> db_product (tables s) = db_product (tables s)) as Hsame.
  { rewrite <- (list_fmap_id (db_product (tables s))) at 2.
    apply list_fmap_ext. intros _ r Hr%list_elem_of_lookup_2.
    unfold Repo.patched. rewrite decide_False; [done|]. intros [_ Hid].
    rewrite (patch_applies e b "id" (VNum (entity_id e))) in Hid
      by (done || apply lookup_insert_eq).
    assert (r ∈ filter (Repo.Matches [("id", Some (VNum (entity_id e)))])
                  (db_product (tables s))) as Hin.
    { apply list_elem_of_filter. split; [|done].
      unfold Repo.Matches. by rewrite Forall_singleton. }
    rewrite Hnone in Hin. by apply elem_of_nil in Hin. }
  assert (written e b s = s) as Hw.
  { unfold written. rewrite Hsame. by destruct s as [[] ?]. }
  rewrite updateProduct_run, Hb, Hw. unfold readBack. by rewrite Hnone.
Qed.

(** ** The update action *)

Section UpdateAction.

Variables (e : ProductInterface) (s : state).

Let run := ProductController.update e s.

(** The state in which the action runs [updateProduct]. *)
Let begun : state := mkState (tables s) (Some (tables s)).

(** X9. The update action is atomic too: when it throws, every table is what
    it was before the call and no scope is left open; what it throws is a
    plain [Error] carrying the text of the error [updateProduct] failed
    with. *)
Theorem update_atomic (err : error) :
  outcome run = Throw err →
  tables (final run) = tables s
  ∧ scope (final run) = None
  ∧ filter is_uow (calls run) = [Begin; Rollback; Commit]
  ∧ ∃ cause, outcome (ProductDBRepository.updateProduct e begun) = Throw cause
             ∧ err = Error (toString cause).
Proof.
  subst run begun. unfold ProductController.update. step.
  set (s1 := mkState (tables s) (Some (tables s))).
  pose proof (plain_updateProduct e) as Hp.
  destruct (outcome (ProductDBRepository.updateProduct e s1)) as [a|cause] eqn:Hout.
  - rewrite (guarded_ok _ _ a Hout).
    revert Hout. unfold outcome.
    by destruct (ProductDBRepository.updateProduct e s1) as [[[] ?] ?].
  - destruct (guarded_throw _ s1 (tables s) Hp eq_refl cause Hout) as (Ho & Hf & Hc).
    revert Ho Hf Hc. unfold outcome, final, calls.
    destruct (try_catch _ _ s1) as [[? ?] c]. simpl. intros -> -> Hc [= <-].
    split; [done|]. split; [done|]. split; [simpl; by rewrite filter_cons, Hc|].
    by exists cause.
Qed.

(** X8. When the update action returns, it returns the product as read
    back after the commit, and, the category and size rows being identified
    by their ids, the categories and sizes read back are exactly those of
    the payload, in the payload's order. *)
Theorem update_reads_back (answer : option Persisted) :
  identified (db_category (tables s)) →
  identified (db_size (tables s)) →
  outcome run = Ok answer →
  ∃ r, answer = Some (mkPersisted r (categories (entity e)) (sizes (entity e)))
       ∧ r !! "id" = Some (VNum (entity_id e))
       ∧ head (filter (Repo.Matches [("id", Some (VNum (entity_id e)))])
                 (db_product (tables (final run)))) = Some r.
Proof.
  intros Hcat Hsize. subst run begun. unfold ProductController.update. step.
  set (s1 := mkState (tables s) (Some (tables s))).
  pose proof (plain_updateProduct e) as Hp.
  destruct (outcome (ProductDBRepository.updateProduct e s1)) as [[]|cause] eqn:Hout.
  2: { destruct (guarded_throw _ s1 (tables s) Hp eq_refl cause Hout) as (Ho & _).
       revert Ho. unfold outcome.
       by destruct (try_catch _ _ s1) as [[[] ?] ?]. }
  pose proof (first_ok_names e s1 Hcat Hsize Hout) as Hnames.
  pose proof (updateProduct_frame e s1 TProduct ltac:(done) ltac:(done)) as Hrows.
  pose proof (updateProduct_run e s1) as Hrun.
  destruct (lookup_name (db_brand (tables s1)) (brand (entity e))) as [|b bs] eqn:Hb.
  { rewrite Hrun in Hout. done. }
  destruct (readBack e (written e b s1)) as [p1|] eqn:Hread.
  2: { rewrite Hrun in Hout. done. }
  clear Hrun. unfold readBack in Hread. apply fmap_Some in Hread as (r & Hr & _).
  simpl in Hrows.
  rewrite (guarded_ok _ _ tt Hout).
  revert Hout Hnames Hrows. unfold outcome, final, calls.
  destruct (ProductDBRepository.updateProduct e s1) as [[res s2] c2]. simpl.
  intros -> Hnames Hrows. unfold ProductRepository.getById. simpl.
  rewrite Hrows. simpl in Hr. rewrite Hr. simpl.
  rewrite (Hnames Categories), (Hnames Sizes). intros [= <-].
  exists r. split; [done|]. split; [|done].
  apply head_Some_elem_of, list_elem_of_filter in Hr as [Hm _].
  by apply Forall_singleton in Hm as [_ ?].
Qed.

End UpdateAction.

(** ** Before the scope of a creation opens *)

(** X5. What [post] does before it begins its transaction.  A caller who
    manages no store makes it fail on the destructuring of the empty
    lookup, with a [TypeError]; "Store not found" is thrown only for a store
    row whose [id] is falsy.  Either way nothing has been called and the
    state is untouched; in every other case the first call is the
    [beginTransaction]. *)
Theorem post_before_scope (s : state) (idManager : Z) (products : list Product) :
  let run := ProductController.post idManager products s in
  match filter (Repo.Matches [("managerId", Some (VNum idManager))]) (db_store (tables s)) with
  | [] => run = (Throw (TypeError "id"), s, [])
  | st0 :: _ =>
      if truthy (st0 !! "id") then head (calls run) = Some Begin
      else run = (Throw (Error "Store not found"), s, [])
  end.
Proof.
  unfold ProductController.post. step.
  destruct (filter _ (db_store (tables s))) as [|st0 ?]; simpl; [done|].
  destruct (truthy (st0 !! "id")) eqn:Ht; simpl; [|done].
  destruct (st0 !! "id") as [i|]; [|done].
  by destruct (try_catch _ _ _) as [[[] ?] ?].
Qed.

(** ** Deleting a product *)

Lemma status_patch (i : value) (r : Row) :
  Repo.patched (<["id" := i]> {[ "status" := VNum 0 ]}) r
  = if decide (r !! "id" = Some i) then <["status" := VNum 0]> r else r.
Proof.
  unfold Repo.patched. rewrite lookup_insert_eq.
  destruct (decide (r !! "id" = Some i)) as [Hid|Hid].
  - rewrite decide_True by (split; [by eexists|done]).
    apply map_eq. intros key.
    destruct (decide (key = "id")) as [->|Hk].
    { by rewrite (lookup_union_Some_l _ _ _ i), lookup_insert_ne, Hid
        by (done || apply lookup_insert_eq). }
    destruct (decide (key = "status")) as [->|Hk'].
    { rewrite lookup_insert_eq. apply lookup_union_Some_l.
      by rewrite lookup_insert_ne, lookup_singleton_eq. }
    rewrite lookup_union_r, lookup_insert_ne; [done..|].
    by rewrite lookup_insert_ne, lookup_singleton_ne.
  - rewrite decide_False; [done|]. by intros [_ ?].
Qed.

(** X14. Deleting a product is a soft delete: the one call is an update of
    the product table; every row stays where it is, the rows carrying the
    product's id get [status] 0 and keep all their other properties, the
    other rows and all other tables are untouched, so that every product
    still reads back the categories and sizes it had. *)
Theorem delete_soft (e : ProductInterface) (s : state) :
  let run := ProductActions.delete e s in
  outcome run = Ok tt
  ∧ calls run = [Update TProduct {[ "id" := VNum (entity_id e); "status" := VNum 0 ]}]
  ∧ db_product (tables (final run)) =
      (λ r, if decide (r !! "id" = Some (VNum (entity_id e)))
            then <["status" := VNum 0]> r else r) <$> db_product (tables s)
  ∧ (∀ t, t ≠ TProduct → get t (tables (final run)) = get t (tables s))
  ∧ ∀ k i, ProductRepository.names k i (tables (final run))
           = ProductRepository.names k i (tables s).
Proof.
  unfold ProductActions.delete. step.
  split; [done|]. split; [done|]. split.
  { apply list_fmap_ext. intros _ r _. apply status_patch. }
  split; [intros t Ht; by destruct t|]. intros k i. apply names_ext; by destruct k.
Qed.

(** ** Creating products and reading them back *)

Lemma nextId_bound (rows : list Row) (r : Row) :
  r ∈ rows → Repo.idOf r < Repo.nextId rows.
Proof.
  unfold Repo.nextId. induction 1 as [r rows|r r' rows _ IH]; simpl; lia.
Qed.

Section Created.

Variables (product : Product) (id : value) (s : state).

Let run := ProductDBRepository.insertProduct product id s.
Let insertId := Repo.nextId (db_product (tables s)).

(** The row [insertProduct] stores once the brand row [b] is found. *)
Let stored (b : Row) : Row :=
  <["id" := VNum insertId]>
    (with_prop "brandId" (b !! "id") (<["storeId" := id]> (rest product))).

Lemma insertProduct_eq :
  run =
  match lookup_name (db_brand (tables s)) (brand product) with
  | [] => (Throw (TypeError "id"), s, [])
  | b :: _ =>
      let cats := resolve (db_category (tables s)) (categories product) in
      let szs := resolve (db_size (tables s)) (sizes product) in
      (if cats.2 then if szs.2 then Ok insertId else Throw (Error "Invalid size")
       else Throw (Error "Invalid category"),
       mkState
         (mkDb (db_brand (tables s)) (db_category (tables s)) (db_size (tables s))
               (db_product (tables s) ++ [stored b])
               (db_productCategory (tables s) ++ (joinRow Categories insertId <$> cats.1))
               (db_productSize (tables s)
                  ++ (if cats.2 then joinRow Sizes insertId <$> szs.1 else []))
               (db_store (tables s)) (db_storeColor (tables s)))
         (scope s),
       Insert TProduct (stored b)
         :: (Insert TProductCategory ∘ joinRow Categories insertId <$> cats.1)
         ++ (if cats.2 then Insert TProductSize ∘ joinRow Sizes insertId <$> szs.1 else []))
  end.
Proof.
  subst run stored insertId.
  pose proof (nextId_pos (db_product (tables s))) as Hpos.
  assert (truthy (Some (VNum (Repo.nextId (db_product (tables s))))) = true) as Htruthy.
  { unfold truthy. apply negb_true_iff, Z.eqb_neq. lia. }
  unfold ProductDBRepository.insertProduct, lookup_name.
  unfold mbind, M_bind, mret, M_ret, throw, Repo.find, Repo.insertOne. simpl.
  destruct (filter _ (db_brand (tables s))) as [|b bs]; simpl; [done|].
  rewrite Htruthy. simpl. rewrite (loop_run Categories). simpl.
  destruct (resolve (db_category (tables s)) (categories product)) as [crows call]. simpl.
  destruct call; simpl.
  - rewrite (loop_run Sizes). simpl.
    destruct (resolve (db_size (tables s)) (sizes product)) as [srows sall]. simpl.
    destruct sall; simpl; by rewrite ?app_nil_r.
  - by rewrite !app_nil_r.
Qed.

(** X15. Of the four errors [insertProduct] has a [throw] for, two can
    never be thrown: "No brand with that name", whose guard tests an array,
    and "Product creation failed", the id of an inserted row being at least
    1.  The creation returns the new id, or fails with the [TypeError] of a
    missing brand, with "Invalid category" or with "Invalid size". *)
Theorem insertProduct_outcomes :
  (outcome run = Ok insertId ∧ 1 ≤ insertId)
  ∨ (outcome run = Throw (TypeError "id")
     ∧ lookup_name (db_brand (tables s)) (brand product) = [])
  ∨ (outcome run = Throw (Error "Invalid category")
     ∧ ∃ name, name ∈ categories product ∧ lookup_name (db_category (tables s)) name = [])
  ∨ (outcome run = Throw (Error "Invalid size")
     ∧ ∃ name, name ∈ sizes product ∧ lookup_name (db_size (tables s)) name = []).
Proof.
  rewrite insertProduct_eq.
  destruct (lookup_name (db_brand (tables s)) (brand product)) as [|b bs]; [by right; left|].
  unfold outcome. simpl.
  destruct (resolve_spec (db_category (tables s)) (categories product)) as (rc & _ & Hc).
  destruct (resolve_spec (db_size (tables s)) (sizes product)) as (rs & _ & Hs).
  destruct (resolve _ (categories product)) as [crows call].
  destruct (resolve _ (sizes product)) as [srows sall]. simpl in *.
  destruct call.
  - destruct sall.
    + left. split; [done|]. apply nextId_pos.
    + right; right; right. split; [done|]. destruct Hs as (bad & rest' & -> & Hbad).
      exists bad. split; [set_solver|done].
  - right; right; left. split; [done|]. destruct Hc as (bad & rest' & -> & Hbad).
    exists bad. split; [set_solver|done].
Qed.

Hypothesis categories_identified : identified (db_category (tables s)).
Hypothesis sizes_identified : identified (db_size (tables s)).
Hypothesis bounded : joins_bounded (tables s).

Lemma fresh_joins (k : assoc) : others k insertId (tables s) = get (joinTable k) (tables s).
Proof.
  unfold others. apply filter_all. intros j Hj [[_ Hm] _]%Forall_cons. simpl in Hm.
  pose proof (bounded k) as Hk. rewrite Forall_forall in Hk.
  destruct (Hk j Hj) as (i & Hi & Hlt). rewrite Hi in Hm. injection Hm as ->.
  subst insertId. lia.
Qed.

(** A product that was created reads back as declared, in the caller's
    store, and the next creation finds the tables in the same good order. *)
Lemma insertProduct_reads_back (i : Z) :
  outcome run = Ok i →
  (∃ r, ProductRepository.getById i (final run) =
          (Ok (Some (mkPersisted r (categories product) (sizes product))), final run, [])
        ∧ r !! "storeId" = Some id ∧ r !! "id" = Some (VNum i))
  ∧ identified (db_category (tables (final run)))
  ∧ identified (db_size (tables (final run)))
  ∧ joins_bounded (tables (final run)).
Proof.
  pose proof (fresh_joins Categories) as Hfc. pose proof (fresh_joins Sizes) as Hfs.
  rewrite insertProduct_eq.
  destruct (lookup_name (db_brand (tables s)) (brand product)) as [|b bs]; [done|].
  destruct (resolve_spec (db_category (tables s)) (categories product)) as (rc & HFc & Hc).
  destruct (resolve_spec (db_size (tables s)) (sizes product)) as (rs & HFs & Hs).
  destruct (resolve _ (categories product)) as [crows call].
  destruct (resolve _ (sizes product)) as [srows sall]. simpl in *.
  unfold outcome, final. simpl.
  destruct call; [|done]. destruct sall; [|done]. intros [= <-]. subst rc rs.
  split; [|split; [done|split; [done|]]].
  - exists (stored b). unfold ProductRepository.getById. simpl.
    rewrite filter_app.
    replace (filter _ (db_product (tables s))) with (@nil Row).
    2: { symmetry. apply filter_none. intros r Hr [[_ Hm] _]%Forall_cons. simpl in Hm.
         pose proof (nextId_bound _ _ Hr) as Hlt. unfold Repo.idOf in Hlt.
         rewrite Hm in Hlt. subst insertId. lia. }
    assert (stored b !! "id" = Some (VNum insertId)) as Hid
      by (subst stored; apply lookup_insert_eq).
    rewrite filter_cons_True by (unfold Repo.Matches; by rewrite Forall_singleton).
    simpl. split; [|split; [|done]].
    + rewrite (names_after Categories insertId (tables s) _ (categories product) crows)
        by (done || (simpl; by rewrite <- Hfc)).
      by rewrite (names_after Sizes insertId (tables s) _ (sizes product) srows)
        by (done || (simpl; by rewrite <- Hfs)).
    + subst stored. simpl. rewrite lookup_insert_ne by done.
      unfold with_prop. destruct (b !! "id");
        by rewrite ?lookup_insert_ne, ?lookup_delete_ne, lookup_insert_eq by done.
  - intros k. simpl. rewrite nextId_snoc.
    assert (Repo.idOf (stored b) = insertId) as -> by (subst stored; apply idOf_insert).
    fold insertId.
    assert (Forall (λ j : Row, ∃ i0, j !! "productId" = Some (VNum i0) ∧ i0 < insertId)
                   (get (joinTable k) (tables s))) as Hold by apply bounded.
    assert (∀ rows, Forall (λ j : Row, ∃ i0, j !! "productId" = Some (VNum i0)
                                             ∧ i0 < Z.max (insertId + 1) insertId)
                      (joinRow k insertId <$> rows)) as Hnew.
    { intros rows. apply Forall_fmap, Forall_forall. intros r _. simpl.
      exists insertId. split; [apply joinRow_props|lia]. }
    destruct k; simpl; apply Forall_app; (split; [|apply Hnew]).
    all: eapply Forall_impl; [exact Hold|]; simpl; intros j (i0 & ? & ?); exists i0;
      split; [done|lia].
Qed.

End Created.

Lemma insertAll_reads_back (id : value) (products : list Product) (s : state)
    (answers : list (option Persisted)) :
  identified (db_category (tables s)) →
  identified (db_size (tables s)) →
  joins_bounded (tables s) →
  outcome (ProductController.insertAll products id s) = Ok answers →
  Forall2 (answered id) products answers.
Proof.
  revert s answers. induction products as [|product products IH]; intros s answers Hc Hs Hb.
  { intros [= <-]. constructor. }
  simpl. unfold mbind at 1, M_bind at 1.
  pose proof (λ i, insertProduct_reads_back product id s Hc Hs Hb i) as Hread.
  revert Hread. unfold outcome at 1, final.
  destruct (ProductDBRepository.insertProduct product id s) as [[[i|err] s1] c1]; simpl;
    [|done].
  intros Hread.
  destruct (Hread i eq_refl) as ((r & Hget & Hstore & _) & Hc1 & Hs1 & Hb1).
  unfold mbind at 1, M_bind at 1. rewrite Hget.
  specialize (IH s1). revert IH. unfold mbind, M_bind, outcome.
  destruct (ProductController.insertAll products id s1) as [[[rest'|err] s2] c2]; simpl;
    [|done].
  intros IH [= <-]. constructor; [by exists r|by apply IH].
Qed.

(** X7. When [post] returns, it answers one entry per product of the
    request, in order, each the product as read back right after its
    insertion: with the categories and the sizes the request declared for it,
    and in the store the caller manages, whatever [storeId] the payload
    carried.  (The category and size rows are identified by their ids and
    every join row references a product id already handed out.) *)
Theorem post_reads_back (s : state) (idManager : Z) (products : list Product)
    (st0 : Row) (stores : list Row) (id : value) (answers : list (option Persisted)) :
  filter (Repo.Matches [("managerId", Some (VNum idManager))]) (db_store (tables s))
    = st0 :: stores →
  st0 !! "id" = Some id →
  identified (db_category (tables s)) →
  identified (db_size (tables s)) →
  joins_bounded (tables s) →
  outcome (ProductController.post idManager products s) = Ok answers →
  Forall2 (answered id) products answers.
Proof.
  intros Hstore Hid Hc Hs Hb. unfold ProductController.post. step.
  rewrite Hstore. simpl. rewrite Hid.
  destruct (truthy (Some id)); simpl; [|done].
  set (s1 := mkState (tables s) (Some (tables s))).
  pose proof (plain_insertAll products id) as Hp.
  destruct (outcome (ProductController.insertAll products id s1)) as [a|e] eqn:Hout.
  - rewrite (guarded_ok _ _ a Hout).
    pose proof (insertAll_reads_back id products s1 a Hc Hs Hb Hout) as HF.
    revert Hout. unfold outcome.
    destruct (ProductController.insertAll products id s1) as [[? ?] c]; simpl.
    by intros -> [= <-].
  - destruct (guarded_throw _ s1 (tables s) Hp eq_refl e Hout) as (Ho & _).
    revert Ho. unfold outcome.
    by destruct (try_catch _ _ s1) as [[[] ?] ?].
Qed.

(** * Further properties of the store controller *)

(** ** Disabling a store *)

(** X3. Disabling a store is a soft delete: every store row stays where it
    is, the rows carrying the payload's [id] get [status] 0 and keep all
    their other properties, and no other table is written; the colour rows
    of the store remain, still paired. *)
Theorem disableStore_soft (st : Store) (s : state) :
  let run := StoreActions.disableStore st s in
  let target := scalars st !! "id" in
  outcome run = Ok tt
  ∧ db_store (tables (final run)) =
      (λ r, if decide (is_Some target ∧ r !! "id" = target)
            then <["status" := VNum 0]> r else r) <$> db_store (tables s)
  ∧ (∀ t, t ≠ TStore → get t (tables (final run)) = get t (tables s))
  ∧ (paired (tables s) → paired (tables (final run))).
Proof.
  unfold StoreActions.disableStore. step.
  split; [done|]. split; [|split; [intros t Ht; by destruct t|]].
  - apply list_fmap_ext. intros _ r _.
    destruct (scalars st !! "id") as [i|]; simpl.
    + rewrite status_patch. apply decide_ext. split; [by split|by intros [_ ?]].
    + unfold Repo.patched. rewrite lookup_delete_eq.
      rewrite !decide_False; [done|by intros [[? [=]] _]..].
  - intros [Hfk Hpair]. split; [|done]. simpl.
    by rewrite nextId_fmap by apply idOf_patched.
Qed.

(** ** Reading a store *)

Lemma lookup_with_prop (k k' : string) (v : option value) (o : Row) :
  with_prop k v o !! k' = if decide (k = k') then v else o !! k'.
Proof.
  unfold with_prop. destruct v; case_decide; subst;
    by rewrite ?lookup_insert_eq, ?lookup_delete_eq, ?lookup_insert_ne, ?lookup_delete_ne.
Qed.

Lemma colorOf_lookup (r : Row) (k : string) :
  StoreActions.colorOf r !! k =
  if decide (k = "hue" ∨ k = "sat" ∨ k = "light") then r !! k else None.
Proof.
  unfold StoreActions.colorOf. rewrite !lookup_with_prop, lookup_empty.
  destruct (decide ("light" = k)) as [<- | H1]; [rewrite decide_True by auto; done|].
  destruct (decide ("sat" = k)) as [<- | H2]; [rewrite decide_True by auto; done|].
  destruct (decide ("hue" = k)) as [<- | H3]; [rewrite decide_True by auto; done|].
  rewrite decide_False; [done|]. by intros [-> | [-> | ->]].
Qed.

Lemma spread_lookup (o : option Color) (k : string) :
  ¬ (k = "hue" ∨ k = "sat" ∨ k = "light") → spread o !! k = None.
Proof.
  intros Hk. destruct o; simpl; [|done].
  rewrite !lookup_insert_ne, lookup_singleton_ne; [done|naive_solver..].
Qed.

(** A row that stores a colour reads back as that colour. *)
Lemma colorOf_spread (r : Row) (o : option Color) :
  (∀ k, k = "hue" ∨ k = "sat" ∨ k = "light" → r !! k = spread o !! k) →
  StoreActions.colorOf r = spread o.
Proof.
  intros H. apply map_eq. intros k. rewrite colorOf_lookup.
  case_decide as Hk; [by apply H|]. by rewrite spread_lookup.
Qed.

(** *** One colour slot *)

Lemma identified_same (rows : list Row) (x r : Row) :
  identified rows → x ∈ rows → r ∈ rows → r !! "id" = x !! "id" → r = x.
Proof.
  intros Hident Hx Hr Hid.
  pose proof (identified_unique rows x Hident Hx) as Hone.
  assert (r ∈ [x]) as Hin; [|by apply list_elem_of_singleton in Hin].
  rewrite <- Hone. apply list_elem_of_filter. split; [|done]. split; [|done].
  destruct Hident as [_ Hall]. rewrite Forall_forall in Hall. by apply Hall.
Qed.

Lemma recolor_keeps (o : option Color) (x : Row) : keeps (recolor o x).
Proof. destruct o; [apply keeps_color_patch|done]. Qed.

Lemma recolor_id (o : option Color) (x r : Row) : recolor o x r !! "id" = r !! "id".
Proof.
  destruct o as [c|]; [|done]. simpl. unfold Repo.patched.
  case_decide as H; [|done]. destruct H as [[i Hi] Hr].
  by rewrite (lookup_union_Some_l _ _ _ i), Hr, Hi.
Qed.

Lemma recolor_identified (o : option Color) (x : Row) (rows : list Row) :
  identified rows → identified (recolor o x <$> rows).
Proof.
  intros [Hnd Hall]. split.
  - rewrite <- list_fmap_compose.
    rewrite (list_fmap_ext _ (.!! "id") rows); [done|].
    intros _ r _. apply recolor_id.
  - apply Forall_fmap. eapply Forall_impl; [exact Hall|]. simpl.
    intros r. by rewrite recolor_id.
Qed.

(** Only the row of the slot is changed. *)
Lemma recolor_other (rows : list Row) (o : option Color) (x r : Row) :
  identified rows → x ∈ rows → r ∈ rows → r ≠ x → recolor o x r = r.
Proof.
  intros Hident Hx Hr Hne. destruct o as [c|]; [|done]. simpl.
  unfold Repo.patched. rewrite decide_False; [done|]. intros [[i Hi] Hid].
  apply Hne, (identified_same rows); [done..|].
  rewrite Hid. rewrite lookup_with_prop, decide_True in Hi |- * by done. done.
Qed.

(** The row of the slot reads back the payload's colour, or its own. *)
Lemma recolor_reads (rows : list Row) (o : option Color) (x : Row) :
  identified rows → x ∈ rows →
  StoreActions.colorOf (recolor o x x) =
  match o with Some c => spread (Some c) | None => StoreActions.colorOf x end.
Proof.
  intros [_ Hall] Hx. destruct o as [c|]; [|done].
  change (recolor (Some c) x x)
    with (Repo.patched (with_prop "id" (x !! "id") (spread (Some c))) x).
  rewrite Forall_forall in Hall. destruct (Hall x Hx) as [i Hi].
  apply colorOf_spread. intros k Hk. unfold Repo.patched.
  rewrite decide_True by (rewrite lookup_with_prop, decide_True by done; by split).
  assert (with_prop "id" (x !! "id") (spread (Some c)) !! k = spread (Some c) !! k) as Hl.
  { rewrite lookup_with_prop, decide_False; [done|]. by destruct Hk as [-> | [-> | ->]]. }
  destruct (spread (Some c) !! k) as [v|] eqn:Hv.
  - by apply lookup_union_Some_l.
  - simpl in Hv. by destruct Hk as [-> | [-> | ->]].
Qed.

Lemma slot_fmap (g : Row → Row) (storeId : Z) (type : string) (rows : list Row) :
  keeps g →
  filter (Repo.Matches [("storeId", Some (VNum storeId)); ("type", Some (VStr type))])
    (g <$> rows)
  = g <$> filter (Repo.Matches [("storeId", Some (VNum storeId)); ("type", Some (VStr type))])
            rows.
Proof.
  intros Hg. induction rows as [|r rows IH]; [done|].
  assert (Repo.Matches [("storeId", Some (VNum storeId)); ("type", Some (VStr type))] (g r)
          ↔ Repo.Matches [("storeId", Some (VNum storeId)); ("type", Some (VStr type))] r)
    as Hiff.
  { unfold Repo.Matches. rewrite !Forall_cons, !Forall_nil. simpl.
    destruct (Hg r) as [-> ->]. reflexivity. }
  rewrite fmap_cons, !filter_cons.
  destruct (decide (Repo.Matches _ r)) as [Hm|Hm].
  - rewrite decide_True by (by apply Hiff). by rewrite fmap_cons, IH.
  - rewrite decide_False by (by rewrite Hiff). done.
Qed.

(** The rows of one store, slot by slot. *)
Lemma slot_rows (storeId : Z) (rows : list Row) (p q : Row) :
  filter (Repo.Matches [("storeId", Some (VNum storeId))]) rows = [p; q] →
  ofType "PRIMARY" p → ofType "SECONDARY" q →
  filter (Repo.Matches [("storeId", Some (VNum storeId)); ("type", Some (VStr "PRIMARY"))])
    rows = [p]
  ∧ filter (Repo.Matches [("storeId", Some (VNum storeId)); ("type", Some (VStr "SECONDARY"))])
      rows = [q].
Proof.
  intros Hrows Hp Hq. unfold ofType in *.
  assert (∀ type,
    filter (Repo.Matches [("storeId", Some (VNum storeId)); ("type", Some (VStr type))]) rows
    = filter (λ r, r !! "type" = Some (VStr type)) [p; q]) as Hsplit.
  { intros type. rewrite <- Hrows, list_filter_filter. apply list_filter_iff.
    intros r. unfold Repo.Matches. rewrite !Forall_cons, Forall_nil. simpl. split.
    - by intros (Hs & (_ & Ht) & _).
    - intros (Ht & Hs & _). split; [done|]. split; [|done]. split; [by eexists|done]. }
  rewrite !Hsplit. split.
  - rewrite filter_cons_True, filter_cons_False by congruence. done.
  - rewrite filter_cons_False, filter_cons_True by congruence. done.
Qed.

(** One of the two colour blocks of [update], once the row of its slot is
    known. *)
Lemma updateColor_slot (storeId : Z) (type : string) (o : option Color) (s : state) (x : Row) :
  filter (Repo.Matches [("storeId", Some (VNum storeId)); ("type", Some (VStr type))])
    (db_storeColor (tables s)) = [x] →
  let run := StoreController.updateColor (Some (VNum storeId)) type o s in
  outcome run = Ok tt
  ∧ final run =
      mkState (set TStoreColor (recolor o x <$> db_storeColor (tables s)) (tables s)) (scope s).
Proof.
  intros Hx. unfold StoreController.updateColor. destruct o as [c|]; simpl.
  - step. by rewrite Hx.
  - unfold outcome, final. simpl. split; [done|].
    rewrite list_fmap_id. by destruct s as [[] ?].
Qed.

Section ReadStore.

Variable productFind : Criteria → M (list Persisted).

(** The product lookup reads: it leaves the state as it found it. *)
Hypothesis productFind_reads : ∀ c s, final (productFind c s) = s.

Lemma products_or_none (c : Criteria) (s : state) :
  ∃ products calls,
    try_catch (productFind c) (λ _, mret []) s = (Ok products, s, calls).
Proof.
  pose proof (productFind_reads c s) as H. revert H. unfold try_catch, final.
  destruct (productFind c s) as [[[ps|e] s1] c1]; simpl; intros ->.
  - by exists ps, c1.
  - exists [], (c1 ++ []). done.
Qed.

(** The answer of [getById], given the store row and the colour rows found. *)
Lemma getById_pair (storeId : Z) (s : state) (p q : Row) :
  filter (Repo.Matches [("storeId", Some (VNum storeId))]) (db_storeColor (tables s)) = [p; q] →
  ofType "PRIMARY" p → ofType "SECONDARY" q →
  ∃ products,
    outcome (StoreActions.getById productFind storeId s) =
      Ok (mkStoreView
            (base.delete "colors"
               (base.delete "products"
                  (default ∅ (head (filter (Repo.Matches [("id", Some (VNum storeId))])
                                      (db_store (tables s)))))))
            products
            {[ "primary" := StoreActions.colorOf p; "secondary" := StoreActions.colorOf q ]}).
Proof.
  intros Hrows Hp Hq. unfold StoreActions.getById.
  destruct (products_or_none
              [("storeId", Some (VNum storeId)); ("status", Some (VNum 1))] s)
    as (products & cs & Htry).
  exists products.
  unfold mbind, M_bind, Repo.getById, Repo.find. simpl.
  unfold mbind, M_bind. simpl. rewrite Htry. simpl. rewrite Hrows. simpl.
  unfold ofType in Hp, Hq. rewrite Hp. simpl. rewrite Hq. simpl.
  unfold outcome. simpl. by do 2 f_equal.
Qed.

(** X1. A store that has just been created reads back as written.
    [createStore] answers the row it inserted: the payload without its
    [colors], that is the scalar properties and the [products] array when
    the payload has one, under the id handed out.  [getById] of that id then
    answers the scalar properties under the id (the row's own [products]
    gives way to the products looked up), and the colours of the payload,
    or the default pair when it had none, under the keys [primary] and
    [secondary]; this whether the product lookup answers or throws.  (The
    store is created in a database whose colour rows are paired.) *)
Theorem created_store_reads_back (st : Store) (s : state) :
  paired (tables s) →
  let created := StoreController.createStore st s in
  let insertId := Repo.nextId (db_store (tables s)) in
  let given := match colors st with Some c => c | None => StoreController.defaultColors end in
  outcome created = Ok (Some (<["id" := VNum insertId]> (uncolored st)))
  ∧ ∃ products,
      outcome (StoreActions.getById productFind insertId (final created)) =
        Ok (mkStoreView
              (base.delete "colors"
                 (base.delete "products" (<["id" := VNum insertId]> (scalars st))))
              products
              {[ "primary" := spread (primary given);
                 "secondary" := spread (secondary given) ]}).
Proof.
  intros [Hfk _] created insertId given.
  set (stored := <["id" := VNum insertId]> (uncolored st)).
  assert (base.delete "products" stored
          = base.delete "products" (<["id" := VNum insertId]> (scalars st))) as Hview.
  { subst stored. unfold uncolored. destruct (products st) as [ps|]; [|done].
    by rewrite !(delete_insert_ne _ "products" "id"), delete_insert_eq by done. }
  set (cid := Repo.nextId (db_storeColor (tables s))).
  set (p := <["id" := VNum cid]> (<["type" := VStr "PRIMARY"]>
              (<["storeId" := VNum insertId]> (spread (primary given))))).
  set (q := <["id" := VNum (Repo.nextId (db_storeColor (tables s) ++ [p]))]>
              (<["type" := VStr "SECONDARY"]>
                 (<["storeId" := VNum insertId]> (spread (secondary given))))).
  assert (filter (Repo.Matches [("id", Some (VNum insertId))]) (db_store (tables s) ++ [stored])
          = [stored]) as Hstore.
  { rewrite filter_app.
    replace (filter _ (db_store (tables s))) with (@nil Row).
    - simpl. rewrite filter_cons_True; [done|]. unfold Repo.Matches.
      rewrite Forall_singleton. split; [done|]. apply lookup_insert_eq.
    - symmetry. apply filter_none. intros r Hr [[_ Hm] _]%Forall_cons. simpl in Hm.
      pose proof (nextId_bound _ _ Hr) as Hlt. unfold Repo.idOf in Hlt.
      rewrite Hm in Hlt. subst insertId. lia. }
  assert (p !! "storeId" = Some (VNum insertId) ∧ ofType "PRIMARY" p) as [Hps Hpt].
  { subst p. unfold ofType. split; by rewrite !lookup_insert_ne, lookup_insert_eq by done. }
  assert (q !! "storeId" = Some (VNum insertId) ∧ ofType "SECONDARY" q) as [Hqs Hqt].
  { subst q. unfold ofType. split; by rewrite !lookup_insert_ne, lookup_insert_eq by done. }
  assert (filter (Repo.Matches [("storeId", Some (VNum insertId))])
            (db_storeColor (tables s) ++ [p; q]) = [p; q]) as Hcolors.
  { rewrite filter_app.
    replace (filter _ (db_storeColor (tables s))) with (@nil Row).
    - simpl. rewrite !filter_cons_True; [done|..];
        unfold Repo.Matches; by rewrite Forall_singleton.
    - symmetry. apply filter_none. intros r Hr [[_ Hm] _]%Forall_cons. simpl in Hm.
      rewrite Forall_forall in Hfk. destruct (Hfk r Hr) as (i & Hi & Hlt).
      rewrite Hi in Hm. injection Hm as ->. subst insertId. lia. }
  assert (final created =
          mkState (set TStoreColor (db_storeColor (tables s) ++ [p; q])
                     (set TStore (db_store (tables s) ++ [stored]) (tables s)))
                  (scope s)
          ∧ outcome created = Ok (head (filter (Repo.Matches [("id", Some (VNum insertId))])
                                          (db_store (tables s) ++ [stored])))) as [Hfinal Hout].
  { subst created. unfold StoreController.createStore. step.
    by rewrite <- app_assoc. }
  rewrite Hout, Hstore. split; [done|].
  destruct (getById_pair insertId (final created) p q) as (products & Hread);
    [by rewrite Hfinal|done..|].
  exists products. rewrite Hread, Hfinal. simpl. rewrite Hstore. simpl.
  rewrite Hview. do 2 f_equal. f_equal.
  - apply colorOf_spread. intros k Hk. subst p.
    destruct Hk as [-> | [-> | ->]]; by rewrite !lookup_insert_ne by done.
  - f_equal. apply colorOf_spread. intros k Hk. subst q.
    destruct Hk as [-> | [-> | ->]]; by rewrite !lookup_insert_ne by done.
Qed.

(** X2. The success path of a store update, read back.  When the caller
    manages a store whose colour rows are its PRIMARY row [p] and its
    SECONDARY row [q], the colour rows being identified by their ids, an
    update whose payload has a [colors] object returns; afterwards the store
    reads back, slot by slot, the colour the payload gave or, for a slot the
    payload left out, the colour it had; the colour rows of every other
    store are what they were. *)
Theorem updated_colors_read_back
    (s : state) (idManager : Z) (fields : Row) (ps : option (list Product))
    (o1 o2 : option Color) (st0 : Row) (others : list Row) (storeId : Z) (p q : Row) :
  filter (Repo.Matches [("managerId", Some (VNum idManager))]) (db_store (tables s))
    = st0 :: others →
  st0 !! "id" = Some (VNum storeId) →
  colorsOf (VNum storeId) (tables s) = [p; q] →
  ofType "PRIMARY" p → ofType "SECONDARY" q →
  identified (db_storeColor (tables s)) →
  let run := StoreController.update idManager (mkStore fields (Some (mkColors o1 o2)) ps) s in
  outcome run = Ok tt
  ∧ (∃ store products,
       outcome (StoreActions.getById productFind storeId (final run)) =
         Ok (mkStoreView store products
               {[ "primary" := match o1 with
                               | Some c => spread (Some c)
                               | None => StoreActions.colorOf p
                               end;
                  "secondary" := match o2 with
                                 | Some c => spread (Some c)
                                 | None => StoreActions.colorOf q
                                 end ]}))
  ∧ ∀ v, v ≠ VNum storeId → colorsOf v (tables (final run)) = colorsOf v (tables s).
Proof.
  intros Hstore Hid Hrows Hp Hq Hident run.
  set (rows := db_storeColor (tables s)) in *.
  assert (p ∈ rows ∧ q ∈ rows ∧ p !! "storeId" = Some (VNum storeId)
          ∧ q !! "storeId" = Some (VNum storeId)) as (Hpin & Hqin & Hps & Hqs).
  { assert (∀ x, x ∈ [p; q] → x ∈ rows ∧ x !! "storeId" = Some (VNum storeId)) as H.
    { intros x Hx. unfold colorsOf in Hrows. rewrite <- Hrows in Hx.
      apply list_elem_of_filter in Hx as [Hm ?]. split; [done|].
      by apply Forall_singleton in Hm as [_ ?]. }
    destruct (H p) as [? ?]; [by left|]. destruct (H q) as [? ?]; [by right; left|]. done. }
  assert (p ≠ q) as Hpq by (unfold ofType in *; congruence).
  set (g1 := recolor o1 p). set (g2 := recolor o2 q).
  pose proof (recolor_keeps o1 p) as Hk1. pose proof (recolor_keeps o2 q) as Hk2.
  fold g1 in Hk1. fold g2 in Hk2.
  assert (identified (g1 <$> rows)) as Hident1 by (by apply recolor_identified).
  assert (g1 q = q) as Hg1q by (by apply (recolor_other rows)).
  assert (g2 (g1 p) = g1 p) as Hg2p.
  { apply (recolor_other (g1 <$> rows)); [done| |by apply list_elem_of_fmap_2|].
    - rewrite <- Hg1q. by apply list_elem_of_fmap_2.
    - unfold ofType in *. destruct (Hk1 p) as [_ Ht]. congruence. }
  assert (final run =
          mkState (set TStoreColor (g2 <$> (g1 <$> rows))
                     (set TStore (Repo.patched (with_prop "id" (st0 !! "id") fields)
                                    <$> db_store (tables s)) (tables s)))
                  (scope s)
          ∧ outcome run = Ok tt) as [Hfinal Hout].
  { destruct (slot_rows storeId rows p q Hrows Hp Hq) as [Hslot1 Hslot2].
    subst run. unfold StoreController.update. step. rewrite Hstore. simpl. rewrite Hid.
    set (s1 := mkState _ (scope s)).
    pose proof (updateColor_slot storeId "PRIMARY" o1 s1 p Hslot1) as H1.
    fold g1 in H1. revert H1. unfold outcome, final.
    destruct (StoreController.updateColor _ "PRIMARY" o1 s1) as [[r1 s2] c2]. simpl.
    intros [-> ->]. simpl.
    assert (filter (Repo.Matches [("storeId", Some (VNum storeId));
                                  ("type", Some (VStr "SECONDARY"))])
              (g1 <$> rows) = [q]) as Hslot2'.
    { rewrite slot_fmap by done. fold rows in Hslot2. by rewrite Hslot2, fmap_cons, Hg1q. }
    set (s2 := mkState _ (scope s)).
    pose proof (updateColor_slot storeId "SECONDARY" o2 s2 q Hslot2') as H2.
    fold g2 in H2. revert H2. unfold outcome, final.
    destruct (StoreController.updateColor _ "SECONDARY" o2 s2) as [[r2 s3] c3]. simpl.
    by intros [-> ->]. }
  split; [done|].
  assert (∀ v, colorsOf v (tables (final run)) = g2 <$> (g1 <$> colorsOf v (tables s))) as Hof.
  { intros v. rewrite Hfinal. unfold colorsOf. simpl. by rewrite !colorsOf_fmap. }
  split.
  - destruct (getById_pair storeId (final run) (g1 p) (g2 q)) as (products & Hread).
    + pose proof (Hof (VNum storeId)) as H. unfold colorsOf in H. rewrite H.
      fold (colorsOf (VNum storeId) (tables s)). rewrite Hrows. simpl.
      by rewrite Hg2p, Hg1q.
    + unfold ofType in *. by destruct (Hk1 p) as [_ ->].
    + unfold ofType in *. by destruct (Hk2 q) as [_ ->].
    + eexists _, products. rewrite Hread. do 2 f_equal. f_equal; [|f_equal].
      * by apply (recolor_reads rows).
      * by apply (recolor_reads rows).
  - intros v Hv. rewrite Hof.
    transitivity ((λ r : Row, r) <$> colorsOf v (tables s)); [|apply list_fmap_id].
    rewrite <- list_fmap_compose. apply list_fmap_ext. intros _ r Hr%list_elem_of_lookup_2.
    unfold colorsOf in Hr. apply list_elem_of_filter in Hr as [Hm Hr].
    apply Forall_singleton in Hm as [_ Hm]. simpl in Hm.
    assert (g1 r = r) as Hr1 by (apply (recolor_other rows); [done..|congruence]).
    simpl. rewrite Hr1. apply (recolor_other (g1 <$> rows)); [done| | |congruence].
    + rewrite <- Hg1q. by apply list_elem_of_fmap_2.
    + rewrite <- Hr1. by apply list_elem_of_fmap_2.
Qed.

End ReadStore.

(** * Further scenarios *)

Section MoreScenarios.

Import Shop.

Lemma productFind_reads (c : Criteria) (s : state) : final (productFind c s) = s.
Proof. done. Qed.

Lemma s0_paired : paired (tables s0).
Proof. split; [constructor|]. intros v. by left. Qed.

Lemma s0_bounded : joins_bounded (tables s0).
Proof. intros []; constructor. Qed.

Lemma created_store_reads_back_witness :
  let created := StoreController.createStore stocked s0 in
  let insertId := Repo.nextId (db_store (tables s0)) in
  (∀ c s, final (productFind c s) = s)
  ∧ paired (tables s0)
  ∧ outcome created =
      Ok (Some (<["id" := VNum insertId]>
                  (<["products" := VArr [objectOf air]]> renamed)))
  ∧ ∃ products,
      outcome (StoreActions.getById productFind insertId (final created)) =
        Ok (mkStoreView
              (base.delete "colors"
                 (base.delete "products" (<["id" := VNum insertId]> renamed)))
              products
              {[ "primary" := spread (Some teal); "secondary" := spread None ]}).
Proof.
  split; [exact productFind_reads|]. split; [exact s0_paired|].
  exact (created_store_reads_back productFind productFind_reads stocked s0 s0_paired).
Defined.

Lemma updated_colors_read_back_witness :
  let run := StoreController.update 5 (mkStore renamed (Some (mkColors (Some teal) None)) None) s2 in
  (∀ c s, final (productFind c s) = s)
  ∧ filter (Repo.Matches [("managerId", Some (VNum 5))]) (db_store (tables s2)) = [annex_row]
  ∧ annex_row !! "id" = Some (VNum 8)
  ∧ colorsOf (VNum 8) (tables s2) = [annex_primary; annex_secondary]
  ∧ ofType "PRIMARY" annex_primary
  ∧ ofType "SECONDARY" annex_secondary
  ∧ identified (db_storeColor (tables s2))
  ∧ outcome run = Ok tt
  ∧ (∃ store products,
       outcome (StoreActions.getById productFind 8 (final run)) =
         Ok (mkStoreView store products
               {[ "primary" := spread (Some teal);
                  "secondary" := StoreActions.colorOf annex_secondary ]}))
  ∧ ∀ v, v ≠ VNum 8 → colorsOf v (tables (final run)) = colorsOf v (tables s2).
Proof.
  assert (filter (Repo.Matches [("managerId", Some (VNum 5))]) (db_store (tables s2))
          = [annex_row]) as H1 by (vm_compute; reflexivity).
  assert (annex_row !! "id" = Some (VNum 8)) as H2 by (vm_compute; reflexivity).
  assert (colorsOf (VNum 8) (tables s2) = [annex_primary; annex_secondary]) as H3
    by (vm_compute; reflexivity).
  assert (ofType "PRIMARY" annex_primary) as H4 by (vm_compute; reflexivity).
  assert (ofType "SECONDARY" annex_secondary) as H5 by (vm_compute; reflexivity).
  assert (identified (db_storeColor (tables s2))) as H6
    by (apply (@bool_decide_unpack _ (identified_dec _)); vm_compute; exact I).
  split; [exact productFind_reads|].
  split; [exact H1|]. split; [exact H2|]. split; [exact H3|]. split; [exact H4|].
  split; [exact H5|]. split; [exact H6|].
  exact (updated_colors_read_back productFind productFind_reads s2 5 renamed None
           (Some teal) None annex_row [] 8 annex_primary annex_secondary
           H1 H2 H3 H4 H5 H6).
Defined.

Lemma update_no_store_witness :
  filter (Repo.Matches [("managerId", Some (VNum 4))]) (db_store (tables s0)) = []
  ∧ StoreController.update 4 (mkStore renamed None None) s0 = (Throw (TypeError "id"), s0, []).
Proof.
  assert (filter (Repo.Matches [("managerId", Some (VNum 4))]) (db_store (tables s0)) = [])
    as H by (vm_compute; reflexivity).
  split; [exact H|]. exact (update_no_store s0 4 renamed None None H).
Defined.

Lemma insertProduct_run_witness :
  let run := ProductDBRepository.insertProduct air (VNum 7) s0 in
  let stored :=
    <["id" := VNum 1]> (with_prop "brandId" (named 1 "Nike" !! "id")
                          (<["storeId" := VNum 7]> (rest air))) in
  let cats := resolve (db_category (tables s0)) (categories air) in
  let szs := resolve (db_size (tables s0)) (sizes air) in
  lookup_name (db_brand (tables s0)) (brand air) = [named 1 "Nike"]
  ∧ outcome run =
      (if cats.2 then if szs.2 then Ok 1 else Throw (Error "Invalid size")
       else Throw (Error "Invalid category"))
  ∧ calls run =
      Insert TProduct stored
        :: (Insert TProductCategory ∘ joinRow Categories 1 <$> cats.1)
        ++ (if cats.2 then Insert TProductSize ∘ joinRow Sizes 1 <$> szs.1 else [])
  ∧ ∀ t, t ≠ TProduct → t ≠ TProductCategory → t ≠ TProductSize →
         get t (tables (final run)) = get t (tables s0).
Proof.
  assert (lookup_name (db_brand (tables s0)) (brand air) = [named 1 "Nike"]) as H
    by (vm_compute; reflexivity).
  split; [exact H|].
  exact (insertProduct_run air (VNum 7) s0 (named 1 "Nike") [] H).
Defined.

Lemma post_reads_back_witness :
  filter (Repo.Matches [("managerId", Some (VNum 3))]) (db_store (tables s0)) = [corner]
  ∧ corner !! "id" = Some (VNum 7)
  ∧ identified (db_category (tables s0))
  ∧ identified (db_size (tables s0))
  ∧ joins_bounded (tables s0)
  ∧ outcome (ProductController.post 3 [air] s0)
    = Ok [Some (mkPersisted air_row ["Shoes"; "Sale"] ["M"])]
  ∧ Forall2 (answered (VNum 7)) [air] [Some (mkPersisted air_row ["Shoes"; "Sale"] ["M"])].
Proof.
  assert (filter (Repo.Matches [("managerId", Some (VNum 3))]) (db_store (tables s0)) = [corner])
    as H1 by (vm_compute; reflexivity).
  assert (corner !! "id" = Some (VNum 7)) as H2 by (vm_compute; reflexivity).
  assert (identified (db_category (tables s0))) as H3
    by (apply (@bool_decide_unpack _ (identified_dec _)); vm_compute; exact I).
  assert (identified (db_size (tables s0))) as H4
    by (apply (@bool_decide_unpack _ (identified_dec _)); vm_compute; exact I).
  assert (outcome (ProductController.post 3 [air] s0)
          = Ok [Some (mkPersisted air_row ["Shoes"; "Sale"] ["M"])]) as H5
    by (vm_compute; reflexivity).
  split; [exact H1|]. split; [exact H2|]. split; [exact H3|]. split; [exact H4|].
  split; [exact s0_bounded|]. split; [exact H5|].
  exact (post_reads_back s0 3 [air] corner [] (VNum 7) _ H1 H2 H3 H4 s0_bounded H5).
Defined.

Lemma update_reads_back_witness :
  identified (db_category (tables s1))
  ∧ identified (db_size (tables s1))
  ∧ outcome (ProductController.update shrunk s1) = Ok (Some (mkPersisted air_row ["Shoes"] ["M"]))
  ∧ ∃ r, Some (mkPersisted air_row ["Shoes"] ["M"])
         = Some (mkPersisted r (categories (entity shrunk)) (sizes (entity shrunk)))
         ∧ r !! "id" = Some (VNum 1)
         ∧ head (filter (Repo.Matches [("id", Some (VNum 1))])
                   (db_product (tables (final (ProductController.update shrunk s1))))) = Some r.
Proof.
  assert (identified (db_category (tables s1))) as H1
    by (apply (@bool_decide_unpack _ (identified_dec _)); vm_compute; exact I).
  assert (identified (db_size (tables s1))) as H2
    by (apply (@bool_decide_unpack _ (identified_dec _)); vm_compute; exact I).
  assert (outcome (ProductController.update shrunk s1)
          = Ok (Some (mkPersisted air_row ["Shoes"] ["M"]))) as H3
    by (vm_compute; reflexivity).
  split; [exact H1|]. split; [exact H2|]. split; [exact H3|].
  exact (update_reads_back shrunk s1 _ H1 H2 H3).
Defined.

Lemma update_atomic_witness :
  let run := ProductController.update unbranded s1 in
  let err := Error (toString (TypeError "id")) in
  outcome run = Throw err
  ∧ tables (final run) = tables s1
  ∧ scope (final run) = None
  ∧ filter is_uow (calls run) = [Begin; Rollback; Commit]
  ∧ ∃ cause,
      outcome (ProductDBRepository.updateProduct unbranded
                 (mkState (tables s1) (Some (tables s1)))) = Throw cause
      ∧ err = Error (toString cause).
Proof.
  assert (outcome (ProductController.update unbranded s1)
          = Throw (Error (toString (TypeError "id")))) as H by (vm_compute; reflexivity).
  split; [exact H|]. exact (update_atomic unbranded s1 _ H).
Defined.

Lemma updateProduct_unknown_product_witness :
  lookup_name (db_brand (tables s1)) (brand (entity missing)) = [named 1 "Nike"]
  ∧ filter (Repo.Matches [("id", Some (VNum 99))]) (db_product (tables s1)) = []
  ∧ ProductDBRepository.updateProduct missing s1 =
      (Throw (Error "Product not found"), s1, [Update TProduct (patch missing (named 1 "Nike"))]).
Proof.
  assert (lookup_name (db_brand (tables s1)) (brand (entity missing)) = [named 1 "Nike"])
    as H1 by (vm_compute; reflexivity).
  assert (filter (Repo.Matches [("id", Some (VNum 99))]) (db_product (tables s1)) = [])
    as H2 by (vm_compute; reflexivity).
  split; [exact H1|]. split; [exact H2|].
  exact (updateProduct_unknown_product missing s1 (named 1 "Nike") [] H1 H2).
Defined.

Lemma updateProduct_missing_brand_witness :
  lookup_name (db_brand (tables s1)) (brand (entity unbranded)) = []
  ∧ ProductDBRepository.updateProduct unbranded s1 = (Throw (TypeError "id"), s1, [])
  ∧ ProductController.update unbranded s1 =
      (Throw (Error (toString (TypeError "id"))), mkState (tables s1) None,
       [Begin; Rollback; Commit]).
Proof.
  assert (lookup_name (db_brand (tables s1)) (brand (entity unbranded)) = []) as H
    by (vm_compute; reflexivity).
  split; [exact H|]. exact (updateProduct_missing_brand unbranded s1 H).
Defined.


End MoreScenarios.

(** * The update action and the read action *)

(** X16. What the update action answers is what the read action serves
    next: when [update] returns, its answer is a product, never
    [undefined], and [getById] for the payload's id, run in the state the
    update left, returns that same product without touching anything. *)
Theorem update_then_get (e : ProductInterface) (s : state) (answer : option Persisted) :
  outcome (ProductController.update e s) = Ok answer →
  ∃ p, answer = Some p
       ∧ ProductActions.getById (entity_id e) (final (ProductController.update e s))
         = (Ok p, final (ProductController.update e s), []).
Proof.
  unfold ProductController.update. step.
  set (s1 := mkState (tables s) (Some (tables s))).
  pose proof (plain_updateProduct e) as Hp.
  destruct (outcome (ProductDBRepository.updateProduct e s1)) as [[]|cause] eqn:Hout.
  2: { destruct (guarded_throw _ s1 (tables s) Hp eq_refl cause Hout) as (Ho & _).
       revert Ho. unfold outcome.
       by destruct (try_catch _ _ s1) as [[[] ?] ?]. }
  pose proof (updateProduct_frame e s1 TProduct ltac:(done) ltac:(done)) as Hrows.
  pose proof (updateProduct_run e s1) as Hrun.
  destruct (lookup_name (db_brand (tables s1)) (brand (entity e))) as [|b bs] eqn:Hb.
  { rewrite Hrun in Hout. done. }
  destruct (readBack e (written e b s1)) as [p1|] eqn:Hread.
  2: { rewrite Hrun in Hout. done. }
  clear Hrun. unfold readBack in Hread. apply fmap_Some in Hread as (r & Hr & _).
  simpl in Hrows.
  rewrite (guarded_ok _ _ tt Hout).
  revert Hout Hrows. unfold outcome, final, calls.
  destruct (ProductDBRepository.updateProduct e s1) as [[res s2] c2]. simpl.
  intros -> Hrows. unfold ProductActions.getById, ProductRepository.getById.
  unfold mbind, M_bind. simpl.
  rewrite Hrows. simpl in Hr. rewrite Hr. simpl. intros [= <-].
  eexists. split; [done|]. done.
Qed.

Lemma update_then_get_witness :
  outcome (ProductController.update Shop.shrunk Shop.s1)
    = Ok (Some (mkPersisted Shop.air_row ["Shoes"] ["M"]))
  ∧ ∃ p, Some (mkPersisted Shop.air_row ["Shoes"] ["M"]) = Some p
         ∧ ProductActions.getById (entity_id Shop.shrunk)
             (final (ProductController.update Shop.shrunk Shop.s1))
           = (Ok p, final (ProductController.update Shop.shrunk Shop.s1), []).
Proof.
  assert (outcome (ProductController.update Shop.shrunk Shop.s1)
          = Ok (Some (mkPersisted Shop.air_row ["Shoes"] ["M"]))) as H
    by (vm_compute; reflexivity).
  split; [exact H|]. exact (update_then_get Shop.shrunk Shop.s1 _ H).
Defined.
